(** * Hierarchical section retrieval and rendering

    A shallow embedding of [src/db/sections_content_retrieval.py]
    ([get_sections_content]), [src/lib/generate_markdown.py]
    ([generate_markdown]) and of the exception mapping of the route
    handler in [src/routes/fetch_routes.py].

    Conventions of the model.
    - A Python [str] is a Rocq [string]; one character is one code point
      below 256.
    - The two SQL statements of [get_sections_content] are evaluated over
      the rows of the [section] table, a list in table order.  Their
      operators follow PostgreSQL: [ILIKE] (pattern language of [LIKE]
      after case folding), the ltree containment operator [<@], and the
      ltree ordering used by [ORDER BY path].
    - The schema of [section] is not part of the sources.  The columns
      [heading], [path] and [level] are taken as NOT NULL; [content] may
      be NULL, which Python receives as [None].
    - Python exceptions are values: a class, a message and the cause
      installed by [raise ... from e]. *)

From Stdlib Require Import List String Ascii Bool Arith ZArith NArith Lia.
From Stdlib Require Import Sorting.Sorted Sorting.Permutation.
Import ListNotations.
Open Scope string_scope.

(* ================================================================== *)
(** * Lexicographic comparison of sequences *)
(* ================================================================== *)

(** Both levels of the ltree ordering are lexicographic: labels are
    compared as byte sequences ([memcmp] on the common length, then the
    shorter one first) and paths as label sequences (label by label, then
    the path with fewer labels first). *)

Section Lex.
Variable A : Type.
Variable cmp : A -> A -> comparison.

Fixpoint lex_compare (a b : list A) : comparison :=
  match a, b with
  | [], [] => Eq
  | [], _ :: _ => Lt
  | _ :: _, [] => Gt
  | x :: a', y :: b' =>
      match cmp x y with
      | Eq => lex_compare a' b'
      | r => r
      end
  end.

(** [is_prefix p a]: the sequence [a] starts with the sequence [p]. *)
Inductive is_prefix : list A -> list A -> Prop :=
| prefix_nil : forall a, is_prefix [] a
| prefix_cons : forall x p a, is_prefix p a -> is_prefix (x :: p) (x :: a).

Hypothesis cmp_eq : forall x y, cmp x y = Eq <-> x = y.
Hypothesis cmp_antisym : forall x y, cmp y x = CompOpp (cmp x y).
Hypothesis cmp_trans : forall x y z, cmp x y = Lt -> cmp y z = Lt -> cmp x z = Lt.

Lemma lex_compare_eq : forall a b, lex_compare a b = Eq <-> a = b.
Proof.
  induction a as [|x a IH]; destruct b as [|y b]; simpl; try (split; congruence).
  destruct (cmp x y) eqn:E.
  - apply cmp_eq in E. subst y. rewrite IH. split; congruence.
  - split; [discriminate|]. intros H. inversion H; subst.
    assert (cmp y y = Eq) by (apply cmp_eq; reflexivity). congruence.
  - split; [discriminate|]. intros H. inversion H; subst.
    assert (cmp y y = Eq) by (apply cmp_eq; reflexivity). congruence.
Qed.

Lemma lex_compare_refl : forall a, lex_compare a a = Eq.
Proof. intros a. apply lex_compare_eq. reflexivity. Qed.

Lemma lex_compare_antisym :
  forall a b, lex_compare b a = CompOpp (lex_compare a b).
Proof.
  induction a as [|x a IH]; destruct b as [|y b]; simpl; try reflexivity.
  rewrite (cmp_antisym x y). destruct (cmp x y); simpl; auto.
Qed.

Lemma lex_compare_trans :
  forall a b c,
    lex_compare a b = Lt -> lex_compare b c = Lt -> lex_compare a c = Lt.
Proof.
  induction a as [|x a IH]; destruct b as [|y b]; destruct c as [|z c];
    simpl; try congruence.
  destruct (cmp x y) eqn:Exy; try discriminate.
  - apply cmp_eq in Exy. subst y.
    destruct (cmp x z); try discriminate; eauto.
  - intros _. destruct (cmp y z) eqn:Eyz; try discriminate.
    + apply cmp_eq in Eyz. subst z. rewrite Exy. reflexivity.
    + intros _. rewrite (cmp_trans _ _ _ Exy Eyz). reflexivity.
Qed.

(** The order "not greater" induced by [lex_compare]. *)
Definition lex_le (a b : list A) : Prop := lex_compare a b <> Gt.

Lemma lex_le_refl : forall a, lex_le a a.
Proof. intros a. unfold lex_le. rewrite lex_compare_refl. discriminate. Qed.

Lemma lex_le_total : forall a b, lex_le a b \/ lex_le b a.
Proof.
  intros a b. unfold lex_le. rewrite (lex_compare_antisym a b).
  destruct (lex_compare a b); simpl; (left; discriminate) || (right; discriminate).
Qed.

Lemma lex_le_trans : forall a b c, lex_le a b -> lex_le b c -> lex_le a c.
Proof.
  unfold lex_le. intros a b c Hab Hbc.
  destruct (lex_compare a b) eqn:Eab; try congruence.
  - apply lex_compare_eq in Eab. subst b. exact Hbc.
  - destruct (lex_compare b c) eqn:Ebc; try congruence.
    + apply lex_compare_eq in Ebc. subst c. rewrite Eab. discriminate.
    + rewrite (lex_compare_trans _ _ _ Eab Ebc). discriminate.
Qed.

Lemma lex_le_antisym : forall a b, lex_le a b -> lex_le b a -> a = b.
Proof.
  unfold lex_le. intros a b Hab Hba. rewrite (lex_compare_antisym a b) in Hba.
  destruct (lex_compare a b) eqn:E; simpl in *; try congruence.
  now apply lex_compare_eq.
Qed.

(** A sequence never sorts after one of its extensions. *)
Lemma prefix_lex_le : forall p a, is_prefix p a -> lex_le p a.
Proof.
  unfold lex_le. induction 1 as [a|x p a _ IH]; simpl.
  - destruct a; discriminate.
  - assert (E : cmp x x = Eq) by (apply cmp_eq; reflexivity).
    rewrite E. exact IH.
Qed.

Lemma strict_prefix_lex_lt :
  forall p a, is_prefix p a -> p <> a -> lex_compare p a = Lt.
Proof.
  intros p a Hp Hne. pose proof (prefix_lex_le _ _ Hp) as Hle. unfold lex_le in Hle.
  destruct (lex_compare p a) eqn:E; try congruence.
  apply lex_compare_eq in E. congruence.
Qed.

(** The extensions of a sequence form an interval of the order. *)
Lemma prefix_convex :
  forall p a b c,
    is_prefix p a -> is_prefix p c -> lex_le a b -> lex_le b c -> is_prefix p b.
Proof.
  induction p as [|x p IH]; intros a b c Ha Hc Hab Hbc.
  - constructor.
  - inversion Ha as [|? ? a' Ha']; subst. inversion Hc as [|? ? c' Hc']; subst.
    unfold lex_le in Hab, Hbc. destruct b as [|y b]; simpl in Hab, Hbc.
    + congruence.
    + rewrite (cmp_antisym x y) in Hbc.
      destruct (cmp x y) eqn:E; simpl in Hbc; try congruence.
      apply cmp_eq in E. subst y. constructor.
      apply (IH a' b c'); assumption.
Qed.

(** Sequences that first differ at one position are ordered by it. *)
Lemma lex_compare_diverge :
  forall p x y a b,
    cmp x y = Lt -> lex_compare (p ++ x :: a) (p ++ y :: b) = Lt.
Proof.
  induction p as [|z p IH]; intros x y a b H; simpl.
  - rewrite H. reflexivity.
  - assert (E : cmp z z = Eq) by (apply cmp_eq; reflexivity).
    rewrite E. now apply IH.
Qed.
End Lex.

Arguments lex_compare {A} cmp a b.
Arguments is_prefix {A} _ _.
Arguments lex_le {A} cmp a b.

(* ================================================================== *)
(** * Hierarchical paths (ltree) *)
(* ================================================================== *)

(** An ltree value is a sequence of labels. *)
Definition label := string.
Definition ltree := list label.

Definition ascii_compare (x y : ascii) : comparison :=
  N.compare (N_of_ascii x) (N_of_ascii y).

(** [memcmp a b n]: the first [n] bytes of [a] and [b] compared as
    unsigned bytes. *)
Fixpoint memcmp (a b : list ascii) (n : nat) : comparison :=
  match n with
  | O => Eq
  | S n' =>
      match a, b with
      | x :: a', y :: b' =>
          match ascii_compare x y with
          | Eq => memcmp a' b' n'
          | r => r
          end
      | _, _ => Eq
      end
  end.

(** One step of [ltree_compare]: [memcmp] over the shorter length of the
    two labels and, when that part is equal, the shorter label first. *)
Definition label_compare (a b : label) : comparison :=
  let al := list_ascii_of_string a in
  let bl := list_ascii_of_string b in
  match memcmp al bl (Nat.min (List.length al) (List.length bl)) with
  | Eq => Nat.compare (List.length al) (List.length bl)
  | r => r
  end.

(** [ltree_compare], the ordering behind [ORDER BY path]: the labels are
    compared pairwise from the first, the first pair that differs
    decides, and when one path runs out the one with fewer labels comes
    first. *)
Definition ltree_compare (a b : ltree) : comparison :=
  lex_compare label_compare a b.

(** [inner_isparent c p]: the operator [c <@ p], true iff [p] has no more
    labels than [c] and agrees with it label by label. *)
Fixpoint inner_isparent (c p : ltree) {struct p} : bool :=
  match p, c with
  | [], _ => true
  | _ :: _, [] => false
  | lp :: p', lc :: c' => String.eqb lp lc && inner_isparent c' p'
  end.

(** The names of the path model of the specification. *)
Definition isDescendantOrSelf (candidate ancestor : ltree) : bool :=
  inner_isparent candidate ancestor.

Definition compare (a b : ltree) : comparison := ltree_compare a b.

Definition path_le (a b : ltree) : Prop := compare a b <> Gt.

(* ================================================================== *)
(** * Strings *)
(* ================================================================== *)

Definition nl : string := String (ascii_of_nat 10) EmptyString.

(** Case folding of [ILIKE]: the letters A to Z are folded, every other
    character is left alone. *)
Definition lower_ascii (c : ascii) : ascii :=
  let n := N_of_ascii c in
  if ((65 <=? n) && (n <=? 90))%N then ascii_of_N (n + 32) else c.

Fixpoint lower (s : string) : string :=
  match s with
  | EmptyString => EmptyString
  | String c s' => String (lower_ascii c) (lower s')
  end.

(** Python's [str.isspace] on one character (code points below 256). *)
Definition is_space (c : ascii) : bool :=
  let n := N_of_ascii c in
  (((9 <=? n) && (n <=? 13)) || ((28 <=? n) && (n <=? 32))
   || (n =? 133) || (n =? 160))%N.

Fixpoint lstrip (s : string) : string :=
  match s with
  | EmptyString => EmptyString
  | String c s' => if is_space c then lstrip s' else s
  end.

Fixpoint rstrip (s : string) : string :=
  match s with
  | EmptyString => EmptyString
  | String c s' =>
      match rstrip s' with
      | EmptyString => if is_space c then EmptyString else String c EmptyString
      | r => String c r
      end
  end.

(** [str.strip()] with no argument. *)
Definition strip (s : string) : string := rstrip (lstrip s).

(** Truth value of a Python [str]: the empty string is false. *)
Definition truthy (s : string) : bool :=
  match s with EmptyString => false | String _ _ => true end.

(** ["#" * level]: a non-positive count gives the empty string. *)
Fixpoint repeat_string (s : string) (n : nat) : string :=
  match n with
  | O => EmptyString
  | S n' => s ++ repeat_string s n'
  end.

Definition str_mul (s : string) (k : Z) : string := repeat_string s (Z.to_nat k).

(** [sep.join(lines)]. *)
Definition join (sep : string) (lines : list string) : string :=
  String.concat sep lines.

(** [needle in haystack] for two strings. *)
Fixpoint contains (needle haystack : string) : bool :=
  String.prefix needle haystack
  || match haystack with
     | EmptyString => false
     | String _ h' => contains needle h'
     end.

(* ================================================================== *)
(** * LIKE and ILIKE *)
(* ================================================================== *)

(** A LIKE pattern is read as a sequence of items: [%] stands for any
    sequence of characters, [_] for any one character, a backslash makes
    the next character literal, every other character stands for itself. *)
Inductive like_token : Type :=
| LitChar (c : ascii)
| AnyChar
| AnyString.

(** [like_tokens escaped p]: the items of [p]; [escaped] tells that the
    previous character was an unescaped backslash.  A pattern that ends
    in an escape character is rejected. *)
Fixpoint like_tokens (escaped : bool) (p : string) : option (list like_token) :=
  match p with
  | EmptyString => if escaped then None else Some []
  | String c p' =>
      if escaped then option_map (cons (LitChar c)) (like_tokens false p')
      else if Ascii.eqb c "\" then like_tokens true p'
      else if Ascii.eqb c "%" then option_map (cons AnyString) (like_tokens false p')
      else if Ascii.eqb c "_" then option_map (cons AnyChar) (like_tokens false p')
      else option_map (cons (LitChar c)) (like_tokens false p')
  end.

Fixpoint like_match (ts : list like_token) : string -> bool :=
  match ts with
  | [] => fun t => match t with EmptyString => true | _ => false end
  | LitChar c :: ts' =>
      fun t => match t with
               | String x t' => Ascii.eqb c x && like_match ts' t'
               | EmptyString => false
               end
  | AnyChar :: ts' =>
      fun t => match t with
               | String _ t' => like_match ts' t'
               | EmptyString => false
               end
  | AnyString :: ts' =>
      fix star (t : string) : bool :=
        like_match ts' t
        || match t with
           | EmptyString => false
           | String _ t' => star t'
           end
  end.

(** [text LIKE pattern]. *)
Definition text_like (text pattern : string) : bool :=
  match like_tokens false pattern with
  | Some ts => like_match ts text
  | None => false
  end.

(** [text ILIKE pattern]: both sides are case-folded, then matched. *)
Definition text_ilike (text pattern : string) : bool :=
  text_like (lower text) (lower pattern).

(** The predicate of the first statement,
    [section.heading ILIKE pattern || ' %']. *)
Definition heading_matches (heading pattern : string) : bool :=
  text_ilike heading (pattern ++ " %").

(** The matching rule in the words of the specification: the heading
    begins, case-insensitively, with the pattern followed by one space. *)
Definition begins_with_token (heading pattern : string) : bool :=
  String.prefix (lower (pattern ++ " ")) (lower heading).

(** A pattern none of whose characters is special to LIKE. *)
Definition like_special (c : ascii) : bool :=
  Ascii.eqb c "\" || Ascii.eqb c "%" || Ascii.eqb c "_".

Fixpoint plain_pattern (p : string) : bool :=
  match p with
  | EmptyString => true
  | String c p' => negb (like_special c) && plain_pattern p'
  end.

(* ================================================================== *)
(** * Data model *)
(* ================================================================== *)

Definition uuid := N.
Bind Scope N_scope with uuid.

(** [SQLDocument] of [src/schemas/models/document.py]. *)
Record document : Type := {
  id : uuid;
  spec : string;
  version : string;
  release : Z;
  toc : string
}.

(** A row of the [section] table. *)
Record section : Type := {
  sec_document_id : uuid;
  sec_heading : string;
  sec_path : ltree;
  sec_level : Z;
  sec_content : option string
}.

(** Rows of the first statement: [SELECT heading, path]. *)
Record path_row : Type := {
  pr_heading : string;
  pr_path : ltree
}.

(** Rows of the second statement: [SELECT heading, level, content]. *)
Record content_row : Type := {
  row_heading : string;
  row_level : Z;
  row_content : option string
}.

(** Python values that may stand where a pattern is expected. *)
Inductive pyval : Type :=
| PyStr (s : string)
| PyInt (z : Z)
| PyNone.

Definition isinstance_str (v : pyval) : bool :=
  match v with PyStr _ => true | _ => false end.

(** The strings of a list that passed the [isinstance] check. *)
Fixpoint strs (l : list pyval) : list string :=
  match l with
  | [] => []
  | PyStr s :: l' => s :: strs l'
  | _ :: l' => strs l'
  end.

(* ================================================================== *)
(** * Exceptions, log records and the effects of a call *)
(* ================================================================== *)

Inductive exc_class : Type :=
| ValueError
| AttributeError
| TypeError
| OperationalError
| Exception.

(** Messages.  A constructor stands for one f-string of the sources and
    keeps the values interpolated into it. *)
Inductive message : Type :=
| Text (s : string)
| DocumentNotFoundMsg (doc_id : uuid)
    (* Document with ID '{doc_id}' not found in the database. *)
| NoSectionsMsg (spec version : string) (section_list : list string)
    (* No sections found for document '{spec} {version}' with the given
       parameter: {section_list} *)
| HierarchicalSearchMsg (spec version : string) (section_list : list string)
    (* Failed to perform hierarchical search for document ... *)
| RetrieveFailedMsg (inner : message)
    (* fetch_sections_content: Failed to retrieve sections: {str(e)} *)
| MarkdownFailedMsg (inner : message)
    (* `_generate_markdown`: Failed to generate markdown: {str(e)} *)
| HttpMsg (status_code : Z) (detail : string).

#[warnings="-register-all"]
Inductive pyexc : Type :=
| PyExc (cls : exc_class) (msg : message) (cause : option pyexc)
| HTTPException (status_code : Z) (detail : string).

(** [str(e)]. *)
Definition exc_str (e : pyexc) : message :=
  match e with
  | PyExc _ m _ => m
  | HTTPException s d => HttpMsg s d
  end.

(** [type(e)] for the exceptions of the retrieval path; [None] for an
    [HTTPException]. *)
Definition exc_cls (e : pyexc) : option exc_class :=
  match e with
  | PyExc c _ _ => Some c
  | HTTPException _ _ => None
  end.

(** [e.__cause__]. *)
Definition exc_cause (e : pyexc) : option pyexc :=
  match e with
  | PyExc _ _ c => c
  | HTTPException _ _ => None
  end.

Inductive log_record : Type :=
| LogInfoFound (n : nat) (spec version : string)
| LogDebugMatched (spec version : string) (headings : list string)
| LogDebugRetrieved (n : nat) (spec version : string) (paths : list ltree)
| LogErrorFetch (e : pyexc)
| LogErrorMarkdown (e : pyexc)
| LogErrorRoute (e : pyexc).

(** What reaches the data store. *)
Inductive db_event : Type :=
| EvGetDocument (doc_id : uuid)
| EvPathFetch (document_id : uuid) (patterns : list string)
| EvContentFetch (document_id : uuid) (paths : list ltree).

(** The state outside a call: the statements sent to the store so far
    and the records handed to the logger so far. *)
Record world : Type := {
  io : list db_event;
  log : list log_record
}.

Inductive outcome (A : Type) : Type :=
| Ok (a : A)
| Raised (e : pyexc).

Arguments Ok {A} a.
Arguments Raised {A} e.

(** A computation reads and extends the world and returns or raises. *)
Definition M (A : Type) : Type := world -> outcome A * world.

Definition ret {A} (a : A) : M A := fun w => (Ok a, w).

Definition raise {A} (e : pyexc) : M A := fun w => (Raised e, w).

Definition bind {A B} (m : M A) (k : A -> M B) : M B :=
  fun w =>
    match m w with
    | (Ok a, w') => k a w'
    | (Raised e, w') => (Raised e, w')
    end.

(** [try: m  except Exception as e: handler e]. *)
Definition try_except {A} (m : M A) (handler : pyexc -> M A) : M A :=
  fun w =>
    match m w with
    | (Ok a, w') => (Ok a, w')
    | (Raised e, w') => handler e w'
    end.

Definition lift {A} (o : outcome A) : M A := fun w => (o, w).

Definition logger (r : log_record) : M unit :=
  fun w => (Ok tt, {| io := io w; log := (log w ++ [r])%list |}).

Definition send (ev : db_event) : M unit :=
  fun w => (Ok tt, {| io := (io w ++ [ev])%list; log := log w |}).

Declare Scope py_scope.
Delimit Scope py_scope with py.
Notation "x <- m ;; k" := (bind m (fun x => k))
  (at level 61, m at next level, right associativity) : py_scope.
Notation "m ;;; k" := (bind m (fun _ => k))
  (at level 61, right associativity) : py_scope.

(* ================================================================== *)
(** * The data store *)
(* ================================================================== *)

Inductive db_op : Type := OpCursor | OpGetDocument | OpPathFetch | OpContentFetch.

(** A connection: the two tables it reads and, per operation, the
    exception the driver raises for it, if any. *)
Record connection : Type := {
  documents : list document;
  section_table : list section;
  fault : db_op -> option pyexc
}.

Definition no_fault : db_op -> option pyexc := fun _ => None.

(** [db_conn.cursor()]. *)
Definition cursor (db_conn : connection) : M unit :=
  match fault db_conn OpCursor with
  | Some e => raise e
  | None => ret tt
  end.

(** Modelled from the spec: [get_document_by_id] of [src/db/document.py],
    which is not among the sources; it resolves an id to the document
    with that id, or to [None]. *)
Definition get_document_by_id (doc_id : uuid) (db_conn : connection)
  : M (option document) :=
  (send (EvGetDocument doc_id) ;;;
   match fault db_conn OpGetDocument with
   | Some e => raise e
   | None => ret (find (fun d => N.eqb (id d) doc_id) (documents db_conn))
   end)%py.

(* ================================================================== *)
(** * The two statements of [get_sections_content] *)
(* ================================================================== *)

(** First statement, the rows kept by its [WHERE] clause:
    [document_id = %s AND EXISTS (SELECT 1 FROM unnest(%s::text[]) AS
    pattern WHERE section.heading ILIKE pattern || ' %')]. *)
Definition matched_sections
    (tbl : list section) (document_id : uuid) (patterns : list string)
  : list section :=
  filter
    (fun s =>
       N.eqb (sec_document_id s) document_id
       && existsb (fun pattern => heading_matches (sec_heading s) pattern) patterns)
    tbl.

Definition path_fetch_query
    (tbl : list section) (document_id : uuid) (patterns : list string)
  : list path_row :=
  map (fun s => {| pr_heading := sec_heading s; pr_path := sec_path s |})
      (matched_sections tbl document_id patterns).

(** [ORDER BY path]: a stable insertion sort on [ltree_compare]. *)
Fixpoint insert_by_path (s : section) (l : list section) : list section :=
  match l with
  | [] => [s]
  | x :: l' =>
      match ltree_compare (sec_path s) (sec_path x) with
      | Gt => x :: insert_by_path s l'
      | _ => s :: l
      end
  end.

Fixpoint order_by_path (l : list section) : list section :=
  match l with
  | [] => []
  | s :: l' => insert_by_path s (order_by_path l')
  end.

(** Second statement, the rows kept by
    [document_id = %s AND path <@ ANY (%s)], in the order of
    [ORDER BY path]. *)
Definition subtree_sections
    (tbl : list section) (document_id : uuid) (paths : list ltree)
  : list section :=
  order_by_path
    (filter
       (fun s =>
          N.eqb (sec_document_id s) document_id
          && existsb (fun m => inner_isparent (sec_path s) m) paths)
       tbl).

Definition content_fetch_query
    (tbl : list section) (document_id : uuid) (paths : list ltree)
  : list content_row :=
  map (fun s => {| row_heading := sec_heading s;
                   row_level := sec_level s;
                   row_content := sec_content s |})
      (subtree_sections tbl document_id paths).

(** [cur.execute(path_fetch_query, ...)] followed by [cur.fetchall()]. *)
Definition execute_path_fetch
    (db_conn : connection) (document_id : uuid) (patterns : list string)
  : M (list path_row) :=
  (send (EvPathFetch document_id patterns) ;;;
   match fault db_conn OpPathFetch with
   | Some e => raise e
   | None => ret (path_fetch_query (section_table db_conn) document_id patterns)
   end)%py.

(** [cur.execute(content_fetch_query, ...)] followed by [cur.fetchall()]. *)
Definition execute_content_fetch
    (db_conn : connection) (document_id : uuid) (paths : list ltree)
  : M (list content_row) :=
  (send (EvContentFetch document_id paths) ;;;
   match fault db_conn OpContentFetch with
   | Some e => raise e
   | None => ret (content_fetch_query (section_table db_conn) document_id paths)
   end)%py.

(* ================================================================== *)
(** * [generate_markdown] *)
(* ================================================================== *)

Definition no_strip : pyexc :=
  PyExc AttributeError (Text "'NoneType' object has no attribute 'strip'") None.

(** The [for] loop: [md_lines] is the list built so far. *)
Fixpoint for_sections (sections_content : list content_row) (md_lines : list string)
  : outcome (list string) :=
  match sections_content with
  | [] => Ok md_lines
  | section :: rest =>
      let heading := row_heading section in
      let level := row_level section in
      let content := row_content section in
      let md_heading := str_mul "#" level ++ " " ++ heading in
      let md_lines := (md_lines ++ [md_heading])%list in
      let md_lines := (md_lines ++ [""])%list in
      match content with
      | None => Raised no_strip
      | Some content =>
          let md_lines :=
            if truthy (strip content)
            then ((md_lines ++ [content]) ++ [""])%list
            else md_lines in
          for_sections rest md_lines
      end
  end.

(** The lines joined by the [return] statement. *)
Definition markdown_lines (doc_name : string) (sections_content : list content_row)
  : outcome (list string) :=
  let md_lines : list string := [] in
  let md_lines := (md_lines ++ [("# " ++ doc_name)%string])%list in
  let md_lines := (md_lines ++ [""])%list in
  for_sections sections_content md_lines.

Definition generate_markdown (doc_name : string) (sections_content : list content_row)
  : M string :=
  try_except
    (lift match markdown_lines doc_name sections_content with
          | Ok md_lines => Ok (strip (join nl md_lines))
          | Raised e => Raised e
          end)
    (fun e =>
       (logger (LogErrorMarkdown e) ;;;
        raise (PyExc Exception (MarkdownFailedMsg (exc_str e)) (Some e)))%py).

(* ================================================================== *)
(** * [get_sections_content] *)
(* ================================================================== *)

(** [not section_list]: an absent list and the empty list are false. *)
Definition falsy_list {A} (l : option (list A)) : bool :=
  match l with
  | None => true
  | Some [] => true
  | Some (_ :: _) => false
  end.

Definition elements {A} (l : option (list A)) : list A :=
  match l with Some l => l | None => [] end.

Definition is_empty {A} (l : list A) : bool :=
  match l with [] => true | _ :: _ => false end.

(** The body of the [try] block. *)
Definition fetch_sections
    (db_conn : connection) (doc_id : uuid) (section_list : list string)
  : M string :=
  (cursor db_conn ;;;
   document <- get_document_by_id doc_id db_conn ;;
   match document with
   | None => raise (PyExc ValueError (DocumentNotFoundMsg doc_id) None)
   | Some document =>
       sections <- execute_path_fetch db_conn (id document) section_list ;;
       if is_empty sections
       then raise (PyExc ValueError
                     (NoSectionsMsg (spec document) (version document) section_list)
                     None)
       else
         logger (LogInfoFound (List.length sections) (spec document) (version document)) ;;;
         let sections_path := map pr_path sections in
         let sections_heading := map pr_heading sections in
         logger (LogDebugMatched (spec document) (version document) sections_heading) ;;;
         sections_content <-
           execute_content_fetch db_conn (id document) sections_path ;;
         if is_empty sections_content
         then raise (PyExc ValueError
                       (HierarchicalSearchMsg (spec document) (version document)
                          section_list)
                       None)
         else
           logger (LogDebugRetrieved (List.length sections_content)
                     (spec document) (version document) sections_path) ;;;
           markdown <- generate_markdown (spec document) sections_content ;;
           ret markdown
   end)%py.

(** The [except Exception as e] clause. *)
Definition fetch_failed (e : pyexc) : M string :=
  (logger (LogErrorFetch e) ;;;
   raise (PyExc Exception (RetrieveFailedMsg (exc_str e)) (Some e)))%py.

Definition get_sections_content
    (db_conn : connection) (doc_id : option uuid) (section_list : option (list pyval))
  : M string :=
  match doc_id with
  | None => raise (PyExc ValueError (Text "Missing required argument: doc_id") None)
  | Some doc_id =>
  if falsy_list section_list
  then raise (PyExc ValueError (Text "Missing required argument: section_list") None)
  else
  if negb (forallb isinstance_str (elements section_list))
  then raise (PyExc ValueError (Text "All section identifiers must be strings") None)
  else
  try_except
    (fetch_sections db_conn doc_id (strs (elements section_list)))
    fetch_failed
  end.

(* ================================================================== *)
(** * The route handler *)
(* ================================================================== *)

(** [get_latest_graph_by_procedure_id_and_entity] from the point where
    the graph row has been fetched: [result] is that row, reduced to its
    [document_id] and [retrieved_top_sections], or [None]. *)
Definition get_latest_graph_by_procedure_id_and_entity
    (conn : connection) (result : option (uuid * option (list pyval)))
  : M string :=
  fun w =>
    match
      match result with
      | None => raise (HTTPException 404 "Graph not found") w
      | Some (document_id, top_sections) =>
          get_sections_content conn (Some document_id) top_sections w
      end
    with
    | (Ok context_md, w') => (Ok context_md, w')
    | (Raised (HTTPException s d), w') => (Raised (HTTPException s d), w')
    | (Raised e, w') =>
        (logger (LogErrorRoute e) ;;;
         raise (HTTPException 500 "Internal server error while fetching graph"))%py w'
    end.

Definition w0 : world := {| io := []; log := [] |}.

(* ================================================================== *)
(** * A concrete store *)
(* ================================================================== *)

Definition doc_38331 : document :=
  {| id := 1%N; spec := "38.331"; version := "17.0.0"; release := 17; toc := "" |}.

Definition sec_A : section :=
  {| sec_document_id := 1%N; sec_heading := "5.2 Random Access";
     sec_path := ["A"]; sec_level := 1; sec_content := Some "Intro text" |}.

Definition sec_A1 : section :=
  {| sec_document_id := 1%N; sec_heading := "5.2.1 Contention";
     sec_path := ["A"; "1"]; sec_level := 2; sec_content := Some "Detail" |}.

Definition sec_B : section :=
  {| sec_document_id := 1%N; sec_heading := "5.3 Other";
     sec_path := ["B"]; sec_level := 1; sec_content := Some "Unrelated" |}.

Definition store : connection :=
  {| documents := [doc_38331];
     section_table := [sec_A; sec_A1; sec_B];
     fault := no_fault |}.

(** A section whose heading holds an [x] where a pattern may hold a
    LIKE wildcard, and one whose heading holds a backslash. *)
Definition sec_5x2 : section :=
  {| sec_document_id := 1%N; sec_heading := "5x2 Foo";
     sec_path := ["C"]; sec_level := 1; sec_content := Some "Body" |}.

Definition sec_backslash : section :=
  {| sec_document_id := 1%N; sec_heading := "a\b c";
     sec_path := ["D"]; sec_level := 1; sec_content := Some "Body" |}.

(** A section stored without content. *)
Definition sec_null : section :=
  {| sec_document_id := 1%N; sec_heading := "5.2.2 Empty";
     sec_path := ["A"; "2"]; sec_level := 2; sec_content := None |}.

Definition store_null : connection :=
  {| documents := [doc_38331];
     section_table := [sec_A; sec_A1; sec_null; sec_B];
     fault := no_fault |}.

(** The store of above behind a connection that fails when the first
    statement is sent. *)
Definition connection_lost : pyexc :=
  PyExc OperationalError (Text "the connection is lost") None.

Definition store_down : connection :=
  {| documents := [doc_38331];
     section_table := [sec_A; sec_A1; sec_B];
     fault := fun op => match op with
                        | OpPathFetch => Some connection_lost
                        | _ => None
                        end |}.

(** Rows for the renderer: a body with blanks around it, then another. *)
Definition row_padded : content_row :=
  {| row_heading := "A"; row_level := 1; row_content := Some " x " |}.

Definition row_next : content_row :=
  {| row_heading := "B"; row_level := 1; row_content := Some "y" |}.


Definition row_none : content_row :=
  {| row_heading := "N"; row_level := 1; row_content := None |}.

(* ================================================================== *)
(** * Vocabulary of the statements *)
(* ================================================================== *)

(** A top-level section has heading depth 1. *)
Definition is_top_level (s : section) : bool := (sec_level s =? 1)%Z.

(** The same section at another heading depth. *)
Definition with_level (f : section -> Z) (s : section) : section :=
  {| sec_document_id := sec_document_id s; sec_heading := sec_heading s;
     sec_path := sec_path s; sec_level := f s; sec_content := sec_content s |}.

(** Document order on sections: the order of their paths. *)
Definition sec_le (a b : section) : Prop := path_le (sec_path a) (sec_path b).

(** The row the second statement makes of a section. *)
Definition row_of (s : section) : content_row :=
  {| row_heading := sec_heading s; row_level := sec_level s;
     row_content := sec_content s |}.

(** Every content of the rows is a string. *)
Definition has_str_content (rows : list content_row) : Prop :=
  Forall (fun r => row_content r <> None) rows.

(** The heading line of a row. *)
Definition heading_line (r : content_row) : string :=
  str_mul "#" (row_level r) ++ " " ++ row_heading r.

(** The lines one row adds when its content is the string [c]. *)
Definition section_block (r : content_row) (c : string) : list string :=
  [heading_line r; ""] ++ (if truthy (strip c) then [c; ""] else []).

(** The lines of a sequence of rows whose contents are strings. *)
Fixpoint blocks (rows : list content_row) : list string :=
  match rows with
  | [] => []
  | r :: rest =>
      match row_content r with
      | Some c => section_block r c ++ blocks rest
      | None => blocks rest
      end
  end.

(** The exception [generate_markdown] raises for a content that is
    [None]. *)
Definition markdown_failed : pyexc :=
  PyExc Exception (MarkdownFailedMsg (exc_str no_strip)) (Some no_strip).

(** The items of a pattern read character by character. *)
Fixpoint literals (p : string) : list like_token :=
  match p with
  | EmptyString => []
  | String c p' => LitChar c :: literals p'
  end.

(** [get_sections_content] passed its three argument checks. *)
Definition valid_patterns (section_list : list pyval) : Prop :=
  section_list <> [] /\ forallb isinstance_str section_list = true.

(* ================================================================== *)
(** * Python dictionaries *)
(* ================================================================== *)

(** A [dict] keeps its keys in insertion order: an association list
    without repeated keys.  [key_eqb] is the equality of the keys. *)
Section PyDict.
Variables K V : Type.
Variable key_eqb : K -> K -> bool.

Definition pydict : Type := list (K * V).

(** [k in m]. *)
Fixpoint dict_contains (k : K) (m : pydict) : bool :=
  match m with
  | [] => false
  | (k', _) :: m' => key_eqb k k' || dict_contains k m'
  end.

(** [m[k]], [None] standing for [KeyError]. *)
Fixpoint dict_getitem (k : K) (m : pydict) : option V :=
  match m with
  | [] => None
  | (k', v) :: m' => if key_eqb k k' then Some v else dict_getitem k m'
  end.

(** [m[k] = v]: a present key keeps its place, a new key goes last. *)
Fixpoint dict_setitem (k : K) (v : V) (m : pydict) : pydict :=
  match m with
  | [] => [(k, v)]
  | (k', v') :: m' =>
      if key_eqb k k' then (k', v) :: m' else (k', v') :: dict_setitem k v m'
  end.

(** The dictionary that holds [f k] under each key [k] of [ks]. *)
Definition tabulate (f : K -> V) (ks : list K) : pydict :=
  map (fun k => (k, f k)) ks.
End PyDict.

Arguments dict_contains {K V} key_eqb k m.
Arguments dict_getitem {K V} key_eqb k m.
Arguments dict_setitem {K V} key_eqb k v m.
Arguments tabulate {K V} f ks.

(* ================================================================== *)
(** * [get_procedure_names_and_entities] *)
(* ================================================================== *)

(** The models of [src/schemas/models/models.py] are not among the
    sources; each is the record of the fields its constructor call
    names.  A row of the statement is the record of its columns. *)
Module Routes.

Record procedure_row : Type := {
  r_document_id : uuid;
  r_document_spec : string;
  r_document_version : string;
  r_document_release : Z;
  r_procedure_id : uuid;
  r_procedure_name : string;
  r_entities : list string
}.

Record ProcedureListItem : Type := {
  procedure_id : uuid;
  procedure_name : string;
  entity : list string
}.

Record ProceduresByDocument : Type := {
  document_id : uuid;
  document_spec : string;
  document_version : string;
  document_release : Z;
  document_procedures : list ProcedureListItem
}.

(** The tuple [doc_key] and its equality. *)
Definition doc_key : Type := (uuid * string * string * Z)%type.

Definition doc_key_eqb (a b : doc_key) : bool :=
  match a, b with
  | (i1, s1, v1, r1), (i2, s2, v2, r2) =>
      N.eqb i1 i2 && String.eqb s1 s2 && String.eqb v1 v2 && Z.eqb r1 r2
  end.

Definition key_of (row : procedure_row) : doc_key :=
  (r_document_id row, r_document_spec row, r_document_version row,
   r_document_release row).

Definition item_of (row : procedure_row) : ProcedureListItem :=
  {| procedure_id := r_procedure_id row;
     procedure_name := r_procedure_name row;
     entity := r_entities row |}.

(** One turn of the loop [for row in results]. *)
Definition group_row
    (doc_map : pydict doc_key (list ProcedureListItem)) (row : procedure_row)
  : pydict doc_key (list ProcedureListItem) :=
  let doc_key := key_of row in
  let doc_map :=
    if negb (dict_contains doc_key_eqb doc_key doc_map)
    then dict_setitem doc_key_eqb doc_key [] doc_map
    else doc_map in
  match dict_getitem doc_key_eqb doc_key doc_map with
  | Some procedures =>
      dict_setitem doc_key_eqb doc_key (procedures ++ [item_of row])%list doc_map
  | None => doc_map
  end.

(** [doc_map] after the loop. *)
Definition group_rows (results : list procedure_row)
  : pydict doc_key (list ProcedureListItem) :=
  fold_left group_row results [].

(** The second loop, over [doc_map.items()]. *)
Definition build_response (doc_map : pydict doc_key (list ProcedureListItem))
  : list ProceduresByDocument :=
  map (fun kv =>
         match kv with
         | ((document_id, document_spec, document_version, document_release),
            procedures) =>
             {| document_id := document_id;
                document_spec := document_spec;
                document_version := document_version;
                document_release := document_release;
                document_procedures := procedures |}
         end)
      doc_map.

(** The handler; [fetched] is what [conn.execute] and [cur.fetchall]
    give, rows or an exception.  Its [logger.error] call is recorded as
    [LogErrorRoute]. *)
Definition get_procedure_names_and_entities
    (fetched : outcome (list procedure_row))
  : M (list ProceduresByDocument) :=
  match fetched with
  | Ok results => ret (build_response (group_rows results))
  | Raised e =>
      (logger (LogErrorRoute e) ;;;
       raise (HTTPException 500 "Internal server error while fetching procedures"))%py
  end.

(** The keys of a list in the order of their first occurrence. *)
Fixpoint first_keys (keys : list doc_key) : list doc_key :=
  match keys with
  | [] => []
  | k :: keys' =>
      k :: filter (fun k' => negb (doc_key_eqb k' k)) (first_keys keys')
  end.

(** The items of the rows that bear a key, in row order. *)
Definition items_of_key (results : list procedure_row) (k : doc_key)
  : list ProcedureListItem :=
  map item_of (filter (fun row => doc_key_eqb (key_of row) k) results).

Definition key_of_response (d : ProceduresByDocument) : doc_key :=
  (document_id d, document_spec d, document_version d, document_release d).

(** The dictionary of the rows [results]: under each key, in the order
    of first occurrence, the items of its rows. *)
Definition grouped (results : list procedure_row)
  : pydict doc_key (list ProcedureListItem) :=
  tabulate (items_of_key results) (first_keys (map key_of results)).

(** The entry of the response for a key. *)
Definition document_of_key (results : list procedure_row) (k : doc_key)
  : ProceduresByDocument :=
  match k with
  | (i, s, v, r) =>
      {| document_id := i; document_spec := s; document_version := v;
         document_release := r; document_procedures := items_of_key results k |}
  end.

Definition row_a : procedure_row :=
  {| r_document_id := 1%N; r_document_spec := "38.331";
     r_document_version := "17.0.0"; r_document_release := 17;
     r_procedure_id := 10%N; r_procedure_name := "Random Access";
     r_entities := ["UE"; "gNB"] |}.

Definition row_b : procedure_row :=
  {| r_document_id := 2%N; r_document_spec := "24.501";
     r_document_version := "17.0.0"; r_document_release := 17;
     r_procedure_id := 20%N; r_procedure_name := "Registration";
     r_entities := ["UE"; "AMF"] |}.

Definition row_c : procedure_row :=
  {| r_document_id := 1%N; r_document_spec := "38.331";
     r_document_version := "17.0.0"; r_document_release := 17;
     r_procedure_id := 11%N; r_procedure_name := "RRC Setup";
     r_entities := ["UE"] |}.

End Routes.

(* ================================================================== *)
(** * [lifespan] *)
(* ================================================================== *)

(** [lifespan] of [src/main.py].  [AsyncDatabaseHandler] is not among
    the sources: its constructor is taken to return, and its [_connect]
    and [_disconnect] are calls that leave a mark in the trace and may
    raise. *)
Module Lifespan.

Inductive exn : Type :=
| Py (e : pyexc)
| RuntimeError (msg : string) (cause : exn).

Inductive event : Type :=
| Connect
| LogError (e : exn)
| SetHandler
| Serve
| Disconnect.

Record handler : Type := {
  connect_fault : option pyexc;
  disconnect_fault : option pyexc
}.

Definition L (A : Type) : Type := list event -> (A + exn) * list event.

Definition unit_ {A} (a : A) : L A := fun tr => (inl a, tr).

Definition throw {A} (e : exn) : L A := fun tr => (inr e, tr).

Definition mark (ev : event) : L unit := fun tr => (inl tt, (tr ++ [ev])%list).

Definition seq {A B} (m : L A) (k : A -> L B) : L B :=
  fun tr =>
    match m tr with
    | (inl a, tr') => k a tr'
    | (inr e, tr') => (inr e, tr')
    end.

(** [try: m  except Exception as e: h e]. *)
Definition try_catch {A} (m : L A) (h : exn -> L A) : L A :=
  fun tr =>
    match m tr with
    | (inl a, tr') => (inl a, tr')
    | (inr e, tr') => h e tr'
    end.

(** [try: m  finally: fin]: [fin] runs on both exits of [m]; when it
    raises, its exception is the one that leaves. *)
Definition try_finally {A} (m : L A) (fin : L unit) : L A :=
  fun tr =>
    match m tr with
    | (r, tr') =>
        match fin tr' with
        | (inl _, tr'') => (r, tr'')
        | (inr e, tr'') => (inr e, tr'')
        end
    end.

Definition _connect (db_handler : handler) : L unit :=
  seq (mark Connect)
      (fun _ => match connect_fault db_handler with
                | Some e => throw (Py e)
                | None => unit_ tt
                end).

Definition _disconnect (db_handler : handler) : L unit :=
  seq (mark Disconnect)
      (fun _ => match disconnect_fault db_handler with
                | Some e => throw (Py e)
                | None => unit_ tt
                end).

(** The [yield]: the application runs until it shuts down, or an
    exception is thrown into the generator. *)
Definition yield_ (thrown : option pyexc) : L unit :=
  seq (mark Serve)
      (fun _ => match thrown with
                | Some e => throw (Py e)
                | None => unit_ tt
                end).

Definition lifespan (db_handler : handler) (thrown : option pyexc) : L unit :=
  seq (try_catch
         (_connect db_handler)
         (fun e =>
            seq (mark (LogError e))
                (fun _ =>
                   throw (RuntimeError "Database setup failed, shutting down API." e))))
      (fun _ =>
         seq (mark SetHandler)
             (fun _ => try_finally (yield_ thrown) (_disconnect db_handler))).

(** A handler that connects and one that does not. *)
Definition handler_up : handler :=
  {| connect_fault := None; disconnect_fault := None |}.

Definition handler_down : handler :=
  {| connect_fault := Some connection_lost; disconnect_fault := None |}.

End Lifespan.

(* ================================================================== *)
(** * Vocabulary of the further properties *)
(* ================================================================== *)

(** Every path of [M] is, or lies below, a path of [M']. *)
Definition covered_by (M M' : list ltree) : Prop :=
  forall m, In m M -> exists m', In m' M' /\ isDescendantOrSelf m m' = true.

(** The sections of a document. *)
Definition sections_of (document_id : uuid) (tbl : list section) : list section :=
  filter (fun s => N.eqb (sec_document_id s) document_id) tbl.

(** The sections of a document lie on distinct paths. *)
Definition unique_paths (tbl : list section) (document_id : uuid) : Prop :=
  NoDup (map sec_path (sections_of document_id tbl)).

(** The connection with the sections of one document only. *)
Definition only_document (document_id : uuid) (db_conn : connection) : connection :=
  {| documents := documents db_conn;
     section_table := sections_of document_id (section_table db_conn);
     fault := fault db_conn |}.

(** What [generate_markdown] returns or raises. *)
Definition render_outcome (doc_name : string) (rows : list content_row)
  : outcome string :=
  match markdown_lines doc_name rows with
  | Ok md_lines => Ok (strip (join nl md_lines))
  | Raised e => Raised (PyExc Exception (MarkdownFailedMsg (exc_str e)) (Some e))
  end.

(** What the [try] block of [get_sections_content] returns or raises. *)
Definition retrieval_outcome
    (db_conn : connection) (doc_id : uuid) (section_list : list string)
  : outcome string :=
  match fault db_conn OpCursor with
  | Some e => Raised e
  | None =>
  match fault db_conn OpGetDocument with
  | Some e => Raised e
  | None =>
  match find (fun x => N.eqb (id x) doc_id) (documents db_conn) with
  | None => Raised (PyExc ValueError (DocumentNotFoundMsg doc_id) None)
  | Some document =>
  match fault db_conn OpPathFetch with
  | Some e => Raised e
  | None =>
  let sections :=
    path_fetch_query (section_table db_conn) (id document) section_list in
  if is_empty sections
  then Raised (PyExc ValueError
                 (NoSectionsMsg (spec document) (version document) section_list) None)
  else
  match fault db_conn OpContentFetch with
  | Some e => Raised e
  | None =>
  let rows :=
    content_fetch_query (section_table db_conn) (id document)
      (map pr_path sections) in
  if is_empty rows
  then Raised (PyExc ValueError
                 (HierarchicalSearchMsg (spec document) (version document)
                    section_list) None)
  else render_outcome (spec document) rows
  end end end end end.

(** The store of above with its rows in another order and a section of
    another document among them. *)
Definition sec_other : section :=
  {| sec_document_id := 2%N; sec_heading := "5.2 Elsewhere";
     sec_path := ["A"]; sec_level := 1; sec_content := Some "Other document" |}.

Definition store_shuffled : connection :=
  {| documents := [doc_38331];
     section_table := [sec_B; sec_A1; sec_A];
     fault := no_fault |}.

Definition store_two_documents : connection :=
  {| documents := [doc_38331];
     section_table := [sec_other; sec_A; sec_A1; sec_B];
     fault := no_fault |}.

(* ================================================================== *)
(** * The path order is a total order *)
(* ================================================================== *)

Lemma ascii_compare_eq : forall x y, ascii_compare x y = Eq <-> x = y.
Proof.
  intros x y. unfold ascii_compare. rewrite N.compare_eq_iff. split.
  - intros H. rewrite <- (ascii_N_embedding x), <- (ascii_N_embedding y).
    now rewrite H.
  - now intros ->.
Qed.

Lemma ascii_compare_antisym :
  forall x y, ascii_compare y x = CompOpp (ascii_compare x y).
Proof. intros x y. unfold ascii_compare. apply N.compare_antisym. Qed.

Lemma ascii_compare_trans :
  forall x y z,
    ascii_compare x y = Lt -> ascii_compare y z = Lt -> ascii_compare x z = Lt.
Proof.
  unfold ascii_compare. intros x y z. rewrite !N.compare_lt_iff. apply N.lt_trans.
Qed.

(** The comparison of two labels is the lexicographic comparison of
    their bytes. *)
Lemma memcmp_length_lex :
  forall a b,
    match memcmp a b (Nat.min (List.length a) (List.length b)) with
    | Eq => Nat.compare (List.length a) (List.length b)
    | r => r
    end
    = lex_compare ascii_compare a b.
Proof.
  induction a as [|x a IH]; destruct b as [|y b]; simpl; try reflexivity.
  destruct (ascii_compare x y); [apply IH | reflexivity | reflexivity].
Qed.

Lemma label_compare_lex :
  forall a b,
    label_compare a b
    = lex_compare ascii_compare (list_ascii_of_string a) (list_ascii_of_string b).
Proof. intros a b. unfold label_compare. apply memcmp_length_lex. Qed.

Lemma label_compare_eq : forall a b, label_compare a b = Eq <-> a = b.
Proof.
  intros a b. rewrite label_compare_lex.
  rewrite (lex_compare_eq _ _ ascii_compare_eq). split.
  - intros H. rewrite <- (string_of_list_ascii_of_string a),
      <- (string_of_list_ascii_of_string b). now rewrite H.
  - now intros ->.
Qed.

Lemma label_compare_antisym :
  forall a b, label_compare b a = CompOpp (label_compare a b).
Proof.
  intros a b. rewrite !label_compare_lex.
  apply (lex_compare_antisym _ _ ascii_compare_antisym).
Qed.

Lemma label_compare_trans :
  forall a b c,
    label_compare a b = Lt -> label_compare b c = Lt -> label_compare a c = Lt.
Proof.
  intros a b c. rewrite !label_compare_lex.
  apply (lex_compare_trans _ _ ascii_compare_eq ascii_compare_trans).
Qed.

Lemma path_le_refl : forall a, path_le a a.
Proof. intros a. apply (lex_le_refl _ _ label_compare_eq). Qed.

Lemma path_le_total : forall a b, path_le a b \/ path_le b a.
Proof. intros a b. apply (lex_le_total _ _ label_compare_antisym). Qed.

Lemma path_le_trans : forall a b c, path_le a b -> path_le b c -> path_le a c.
Proof.
  intros a b c.
  apply (lex_le_trans _ _ label_compare_eq label_compare_trans).
Qed.

Lemma path_le_antisym : forall a b, path_le a b -> path_le b a -> a = b.
Proof.
  intros a b. apply (lex_le_antisym _ _ label_compare_eq label_compare_antisym).
Qed.

(** [<@] is the prefix relation on label sequences. *)
Lemma inner_isparent_prefix :
  forall p c, inner_isparent c p = true <-> is_prefix p c.
Proof.
  induction p as [|lp p IH]; intros c; simpl.
  - split; [constructor | reflexivity].
  - destruct c as [|lc c].
    + split; [discriminate | inversion 1].
    + rewrite andb_true_iff, String.eqb_eq, IH. split.
      * intros [-> H]. now constructor.
      * inversion 1; subst. auto.
Qed.

Lemma isDescendantOrSelf_refl : forall p, isDescendantOrSelf p p = true.
Proof.
  intros p. apply inner_isparent_prefix. induction p; constructor; assumption.
Qed.

Lemma is_prefix_app : forall (A : Type) (p a : list A), is_prefix p (p ++ a).
Proof. induction p; intros; simpl; constructor; auto. Qed.

(* ================================================================== *)
(** * The pattern-matching stage *)
(* ================================================================== *)

Lemma lower_app : forall a b, lower (a ++ b) = lower a ++ lower b.
Proof. induction a as [|c a IH]; intros b; simpl; [|rewrite IH]; reflexivity. Qed.

Lemma like_special_lower :
  forall c, like_special (lower_ascii c) = like_special c.
Proof. intros [[] [] [] [] [] [] [] []]; reflexivity. Qed.

Lemma plain_pattern_lower :
  forall p, plain_pattern (lower p) = plain_pattern p.
Proof.
  induction p as [|c p IH]; simpl; [reflexivity|].
  now rewrite like_special_lower, IH.
Qed.

(** A trailing [%] accepts every rest of the text. *)
Lemma like_match_any : forall t, like_match [AnyString] t = true.
Proof. induction t as [|c t IH]; simpl; [reflexivity | exact IH]. Qed.

Lemma like_tokens_plain :
  forall p rest,
    plain_pattern p = true ->
    like_tokens false (p ++ rest)
    = option_map (app (literals p)) (like_tokens false rest).
Proof.
  induction p as [|c p IH]; intros rest Hp; simpl.
  - destruct (like_tokens false rest); reflexivity.
  - simpl in Hp. apply andb_true_iff in Hp. destruct Hp as [Hc Hp].
    unfold like_special in Hc. apply negb_true_iff in Hc.
    apply orb_false_iff in Hc. destruct Hc as [Hc H3].
    apply orb_false_iff in Hc. destruct Hc as [H1 H2].
    rewrite H1, H2, H3, (IH rest Hp).
    destruct (like_tokens false rest); reflexivity.
Qed.

Lemma like_match_literals :
  forall p ts t,
    like_match (literals p ++ ts) t
    = String.prefix p t
      && like_match ts (substring (String.length p) (String.length t - String.length p) t).
Proof.
  induction p as [|c p IH]; intros ts t; simpl.
  - replace (String.prefix "" t) with true by (destruct t; reflexivity).
    simpl. rewrite Nat.sub_0_r.
    assert (H : forall s, substring 0 (String.length s) s = s).
    { induction s as [|x s IHs]; simpl; [reflexivity | now rewrite IHs]. }
    now rewrite H.
  - destruct t as [|x t]; simpl; [reflexivity|].
    destruct (ascii_dec c x) as [->|Hne].
    + rewrite Ascii.eqb_refl. simpl. apply IH.
    + apply Ascii.eqb_neq in Hne. rewrite Hne. reflexivity.
Qed.

(** For a pattern without [%], [_] and backslash the predicate of the
    statement is the matching rule: the heading begins with the pattern
    followed by one space, up to case. *)
Lemma plain_pattern_matches_token :
  forall heading pattern,
    plain_pattern pattern = true ->
    heading_matches heading pattern = begins_with_token heading pattern.
Proof.
  intros heading pattern Hp.
  unfold heading_matches, begins_with_token, text_ilike, text_like.
  replace (pattern ++ " %") with ((pattern ++ " ") ++ "%").
  2:{ clear. induction pattern as [|c p IH]; simpl; [reflexivity | now rewrite IH]. }
  rewrite (lower_app (pattern ++ " ") "%").
  rewrite like_tokens_plain.
  2:{ rewrite plain_pattern_lower. clear - Hp.
      induction pattern as [|c p IH]; simpl in *; [reflexivity|].
      apply andb_true_iff in Hp. destruct Hp as [-> Hp]. simpl. auto. }
  simpl. rewrite like_match_literals, like_match_any. apply andb_true_r.
Qed.

(** A section is selected iff it belongs to the document and its heading
    matches at least one pattern of the list. *)
Lemma matched_sections_spec :
  forall tbl document_id patterns s,
    In s (matched_sections tbl document_id patterns)
    <-> In s tbl /\ sec_document_id s = document_id
        /\ exists pattern,
             In pattern patterns /\ heading_matches (sec_heading s) pattern = true.
Proof.
  intros tbl d pats s. unfold matched_sections.
  rewrite filter_In, andb_true_iff, N.eqb_eq, existsb_exists. tauto.
Qed.

(** The statement never looks at the heading depth. *)
Lemma path_fetch_ignores_level :
  forall f tbl document_id patterns,
    path_fetch_query (map (with_level f) tbl) document_id patterns
    = path_fetch_query tbl document_id patterns.
Proof.
  intros f tbl d pats. unfold path_fetch_query, matched_sections.
  induction tbl as [|s tbl IH]; simpl; [reflexivity|].
  destruct (_ && _); simpl; now rewrite IH.
Qed.

(** The examples of the matching rule. *)
Example token_boundary_examples :
  heading_matches "5.2 Random Access" "5.2" = true
  /\ heading_matches "5.20 Something" "5.2" = false
  /\ heading_matches "5.2 Foo" "5.2" = true
  /\ heading_matches "abc Title" "ABC" = true.
Proof. repeat split; reflexivity. Qed.

(** The query pattern always parses: the [%] that ends it is never
    escaped, so no "pattern must not end with escape character". *)
Lemma like_tokens_query_pattern :
  forall pattern escaped,
    exists ts, like_tokens escaped (pattern ++ " %") = Some (ts ++ [AnyString])%list.
Proof.
  induction pattern as [|c p IH]; intros escaped; simpl.
  - destruct escaped; simpl; [exists [LitChar " "] | exists [LitChar " "]]; reflexivity.
  - destruct escaped.
    + destruct (IH false) as [ts ->]. exists (LitChar c :: ts). reflexivity.
    + destruct (Ascii.eqb c "\"); [apply IH|].
      destruct (Ascii.eqb c "%");
        [destruct (IH false) as [ts ->]; exists (AnyString :: ts); reflexivity|].
      destruct (Ascii.eqb c "_");
        [destruct (IH false) as [ts ->]; exists (AnyChar :: ts); reflexivity|].
      destruct (IH false) as [ts ->]. exists (LitChar c :: ts). reflexivity.
Qed.

(** C1. The first statement selects a section by [heading ILIKE
    pattern || ' %'] and hands the caller's pattern to [ILIKE] as it is:
    on the pattern ["5_2"] the section headed ["5x2 Foo"] is selected
    although its heading does not begin with ["5_2 "], and on the pattern
    ["a\b"] the section headed ["a\b c"] is not selected although its
    heading begins with the pattern and a space. *)
Theorem pattern_wildcards_reach_ilike :
  matched_sections [sec_5x2] 1 ["5_2"] = [sec_5x2]
  /\ begins_with_token (sec_heading sec_5x2) "5_2" = false
  /\ matched_sections [sec_backslash] 1 ["a\b"] = []
  /\ begins_with_token (sec_heading sec_backslash) "a\b" = true.
Proof. repeat split; reflexivity. Qed.

(** C7, as it stands, fails: on the pattern ["5.2.1"] the first
    statement returns the nested section [A.1], of heading depth 2. *)
Lemma matcher_returns_nested_section :
  exists s,
    In s (matched_sections (section_table store) 1 ["5.2.1"])
    /\ is_top_level s = false
    /\ List.length (sec_path s) = 2.
Proof. exists sec_A1. repeat split. simpl. auto. Qed.

(** C7, amended. Every row of the first statement is the heading and
    path of a section of the given document whose heading matches one of
    the patterns; the statement does not look at the heading depth, so
    the section may lie at any depth. *)
Theorem matcher_returns_matching_sections :
  forall tbl document_id patterns r,
    In r (path_fetch_query tbl document_id patterns) ->
    (exists s,
        In s tbl /\ sec_document_id s = document_id
        /\ pr_heading r = sec_heading s /\ pr_path r = sec_path s
        /\ exists pattern,
             In pattern patterns /\ heading_matches (sec_heading s) pattern = true)
    /\ forall f,
         path_fetch_query (map (with_level f) tbl) document_id patterns
         = path_fetch_query tbl document_id patterns.
Proof.
  intros tbl d pats r Hr. split.
  - unfold path_fetch_query in Hr. apply in_map_iff in Hr.
    destruct Hr as [s [<- Hs]]. apply matched_sections_spec in Hs.
    destruct Hs as [Hin [Hd Hp]]. exists s. simpl. auto.
  - intros f. apply path_fetch_ignores_level.
Qed.

Lemma matcher_returns_matching_sections_witness :
  exists s,
    In s (section_table store) /\ sec_document_id s = 1%N
    /\ "5.2.1 Contention" = sec_heading s /\ ["A"; "1"] = sec_path s
    /\ exists pattern,
         In pattern ["5.2.1"] /\ heading_matches (sec_heading s) pattern = true.
Proof.
  apply (matcher_returns_matching_sections (section_table store) 1 ["5.2.1"]
           {| pr_heading := "5.2.1 Contention"; pr_path := ["A"; "1"] |}).
  simpl. left. reflexivity.
Defined.

(* ================================================================== *)
(** * The subtree-expansion stage *)
(* ================================================================== *)

Lemma insert_by_path_perm :
  forall s l, Permutation (s :: l) (insert_by_path s l).
Proof.
  induction l as [|x l IH]; simpl.
  - apply Permutation_refl.
  - destruct (ltree_compare (sec_path s) (sec_path x)).
    + apply Permutation_refl.
    + apply Permutation_refl.
    + eapply perm_trans; [apply perm_swap | apply perm_skip, IH].
Qed.

Lemma order_by_path_perm : forall l, Permutation l (order_by_path l).
Proof.
  induction l as [|s l IH]; simpl.
  - constructor.
  - eapply perm_trans; [apply perm_skip, IH | apply insert_by_path_perm].
Qed.

Lemma insert_by_path_sorted :
  forall s l, StronglySorted sec_le l -> StronglySorted sec_le (insert_by_path s l).
Proof.
  induction l as [|x l IH]; intros Hl; simpl.
  - repeat constructor.
  - inversion Hl as [|? ? Hl' Hx]; subst.
    destruct (ltree_compare (sec_path s) (sec_path x)) eqn:E.
    + constructor; [assumption|]. constructor.
      * unfold sec_le, path_le, compare. rewrite E. discriminate.
      * apply Forall_forall. intros y Hy. rewrite Forall_forall in Hx.
        apply path_le_trans with (sec_path x); [|apply Hx, Hy].
        unfold path_le, compare. rewrite E. discriminate.
    + constructor; [assumption|]. constructor.
      * unfold sec_le, path_le, compare. rewrite E. discriminate.
      * apply Forall_forall. intros y Hy. rewrite Forall_forall in Hx.
        apply path_le_trans with (sec_path x); [|apply Hx, Hy].
        unfold path_le, compare. rewrite E. discriminate.
    + constructor; [apply IH, Hl'|].
      apply Forall_forall. intros y Hy.
      apply (Permutation_in _ (Permutation_sym (insert_by_path_perm s l))) in Hy.
      destruct Hy as [<-|Hy].
      * unfold sec_le, path_le, compare, ltree_compare.
        rewrite (lex_compare_antisym _ _ label_compare_antisym (sec_path s) (sec_path x)).
        unfold ltree_compare in E. rewrite E. discriminate.
      * rewrite Forall_forall in Hx. apply Hx, Hy.
Qed.

Lemma order_by_path_sorted : forall l, StronglySorted sec_le (order_by_path l).
Proof.
  induction l as [|s l IH]; simpl; [constructor | now apply insert_by_path_sorted].
Qed.

(** In a sorted list an earlier position holds a path that is not
    greater. *)
Lemma sorted_nth_le :
  forall l i j a b,
    StronglySorted sec_le l ->
    i <= j -> nth_error l i = Some a -> nth_error l j = Some b -> sec_le a b.
Proof.
  induction l as [|x l IH]; intros i j a b Hs Hij Ha Hb.
  - destruct i; discriminate.
  - inversion Hs as [|? ? Hs' Hx]; subst.
    destruct i as [|i]; destruct j as [|j]; simpl in *.
    + inversion Ha; inversion Hb; subst. apply path_le_refl.
    + inversion Ha; subst. rewrite Forall_forall in Hx.
      apply Hx. eapply nth_error_In; eauto.
    + lia.
    + apply (IH i j); auto. lia.
Qed.

(** In a sorted list a strictly smaller path stands at an earlier
    position. *)
Lemma sorted_lt_before :
  forall l i j a b,
    StronglySorted sec_le l ->
    nth_error l i = Some a -> nth_error l j = Some b ->
    compare (sec_path a) (sec_path b) = Lt -> i < j.
Proof.
  intros l i j a b Hs Ha Hb Hlt.
  destruct (Nat.lt_ge_cases i j) as [H|H]; [exact H|].
  pose proof (sorted_nth_le l j i b a Hs H Hb Ha) as Hle.
  unfold sec_le, path_le, compare, ltree_compare in Hle, Hlt.
  rewrite (lex_compare_antisym _ _ label_compare_antisym (sec_path a) (sec_path b)) in Hle.
  rewrite Hlt in Hle. simpl in Hle. congruence.
Qed.

Lemma subtree_sections_spec :
  forall tbl document_id paths s,
    In s (subtree_sections tbl document_id paths)
    <-> In s tbl /\ sec_document_id s = document_id
        /\ exists m, In m paths /\ isDescendantOrSelf (sec_path s) m = true.
Proof.
  intros tbl d M s. unfold subtree_sections, isDescendantOrSelf. split.
  - intros H. apply (Permutation_in _ (Permutation_sym (order_by_path_perm _))) in H.
    rewrite filter_In, andb_true_iff, N.eqb_eq, existsb_exists in H. tauto.
  - intros H. apply (Permutation_in _ (order_by_path_perm _)).
    rewrite filter_In, andb_true_iff, N.eqb_eq, existsb_exists. tauto.
Qed.

Lemma subtree_sections_NoDup :
  forall tbl document_id paths,
    NoDup tbl -> NoDup (subtree_sections tbl document_id paths).
Proof.
  intros tbl d M H. unfold subtree_sections.
  eapply Permutation_NoDup; [apply order_by_path_perm|].
  now apply NoDup_filter.
Qed.

(** C2. Over a table whose rows are distinct, and for every list of
    matched paths, the second statement returns exactly the sections
    of the document that are a matched section or lie below one, each of
    them once, also when several matched paths are above it; its result
    rows are these sections in this order. *)
Theorem subtree_expansion_exact :
  forall tbl document_id paths,
    NoDup tbl ->
    (forall s,
        In s (subtree_sections tbl document_id paths)
        <-> In s tbl /\ sec_document_id s = document_id
            /\ exists m, In m paths /\ isDescendantOrSelf (sec_path s) m = true)
    /\ NoDup (subtree_sections tbl document_id paths)
    /\ content_fetch_query tbl document_id paths
       = map row_of (subtree_sections tbl document_id paths).
Proof.
  intros tbl d M Hnd. split; [|split].
  - intros s. apply subtree_sections_spec.
  - now apply subtree_sections_NoDup.
  - reflexivity.
Qed.

(** [A.1] lies below both matched paths [A] and [A.1] and is returned
    once. *)
Lemma subtree_expansion_exact_witness :
  NoDup (subtree_sections (section_table store) 1 [["A"]; ["A"; "1"]])
  /\ subtree_sections (section_table store) 1 [["A"]; ["A"; "1"]] = [sec_A; sec_A1].
Proof.
  split; [|reflexivity].
  apply (subtree_expansion_exact (section_table store) 1 [["A"]; ["A"; "1"]]).
  simpl. repeat constructor; simpl; intuition discriminate.
Defined.

(** C3. The sections of the second statement come in document order:
    the sequence is non-decreasing for [compare]; a section stands before
    every section below it; the sections below one path stand next to
    each other, no other section between them; and of two sections below
    different children of one path, the one below the child with the
    smaller label comes first. *)
Theorem expansion_in_document_order :
  forall tbl document_id paths,
    let out := subtree_sections tbl document_id paths in
    StronglySorted (fun a b => compare (sec_path a) (sec_path b) <> Gt) out
    /\ (forall i j a b,
           nth_error out i = Some a -> nth_error out j = Some b ->
           isDescendantOrSelf (sec_path b) (sec_path a) = true ->
           sec_path a <> sec_path b ->
           i < j)
    /\ (forall i j k a b c p,
           i <= j -> j <= k ->
           nth_error out i = Some a -> nth_error out j = Some b ->
           nth_error out k = Some c ->
           isDescendantOrSelf (sec_path a) p = true ->
           isDescendantOrSelf (sec_path c) p = true ->
           isDescendantOrSelf (sec_path b) p = true)
    /\ (forall i j a b (p : ltree) (l1 l2 : label),
           nth_error out i = Some a -> nth_error out j = Some b ->
           isDescendantOrSelf (sec_path a) (p ++ [l1])%list = true ->
           isDescendantOrSelf (sec_path b) (p ++ [l2])%list = true ->
           label_compare l1 l2 = Lt ->
           i < j).
Proof.
  intros tbl d M out.
  assert (Hs : StronglySorted sec_le out) by apply order_by_path_sorted.
  split; [exact Hs|]. split; [|split].
  - intros i j a b Ha Hb Hdesc Hne.
    apply (sorted_lt_before out i j a b Hs Ha Hb).
    apply inner_isparent_prefix in Hdesc.
    apply (strict_prefix_lex_lt _ _ label_compare_eq _ _ Hdesc Hne).
  - intros i j k a b c p Hij Hjk Ha Hb Hc Hpa Hpc.
    apply inner_isparent_prefix. apply inner_isparent_prefix in Hpa, Hpc.
    apply (prefix_convex _ _ label_compare_eq label_compare_antisym
             p (sec_path a) (sec_path b) (sec_path c) Hpa Hpc).
    + apply (sorted_nth_le out i j a b Hs Hij Ha Hb).
    + apply (sorted_nth_le out j k b c Hs Hjk Hb Hc).
  - intros i j a b p l1 l2 Ha Hb Hpa Hpb Hlt.
    apply (sorted_lt_before out i j a b Hs Ha Hb).
    apply inner_isparent_prefix in Hpa, Hpb.
    assert (Hsplit : forall (q : ltree) (l : label) x,
               is_prefix (q ++ [l])%list x -> exists r, x = (q ++ l :: r)%list).
    { clear. induction q as [|y q IH]; intros l x H; simpl in H.
      - inversion H; subst. eexists; reflexivity.
      - inversion H as [|? ? x' H']; subst. destruct (IH l x' H') as [r ->].
        exists r. reflexivity. }
    destruct (Hsplit p l1 _ Hpa) as [ra ->].
    destruct (Hsplit p l2 _ Hpb) as [rb ->].
    apply (lex_compare_diverge _ _ label_compare_eq). exact Hlt.
Qed.

Lemma expansion_in_document_order_witness :
  0 < 1
  /\ isDescendantOrSelf ["A"; "1"] ["A"] = true.
Proof.
  pose proof (expansion_in_document_order (section_table store) 1 [["A"]; ["B"]])
    as [_ [Hparent [Hconvex _]]].
  split.
  - apply (Hparent 0 1 sec_A sec_A1); [reflexivity | reflexivity | reflexivity |].
    simpl. discriminate.
  - apply (Hconvex 0 1 1 sec_A sec_A1 sec_A1 ["A"]);
      (lia || reflexivity).
Defined.

(* ================================================================== *)
(** * The renderer *)
(* ================================================================== *)

Lemma for_sections_str :
  forall rows md_lines,
    has_str_content rows ->
    for_sections rows md_lines = Ok (md_lines ++ blocks rows)%list.
Proof.
  induction rows as [|r rows IH]; intros acc H; simpl.
  - now rewrite app_nil_r.
  - inversion H as [|? ? Hr Hrows]; subst.
    destruct (row_content r) as [c|] eqn:E; [|congruence].
    rewrite (IH _ Hrows). unfold section_block, heading_line.
    destruct (truthy (strip c)); simpl; repeat rewrite <- app_assoc; reflexivity.
Qed.

Lemma for_sections_none :
  forall rows md_lines,
    Exists (fun r => row_content r = None) rows ->
    for_sections rows md_lines = Raised no_strip.
Proof.
  induction rows as [|r rows IH]; intros acc H; simpl.
  - inversion H.
  - destruct (row_content r) as [c|] eqn:E; [|reflexivity].
    inversion H as [? ? Hr|? ? Hrows]; subst; [congruence|].
    now apply IH.
Qed.


Lemma has_str_content_dec :
  forall rows,
    has_str_content rows \/ Exists (fun r => row_content r = None) rows.
Proof.
  induction rows as [|r rows [IH|IH]].
  - left. constructor.
  - destruct (row_content r) eqn:E.
    + left. constructor; [congruence | exact IH].
    + right. now constructor.
  - right. now constructor 2.
Qed.

(** What [generate_markdown] returns and leaves behind, by cases on the
    lines. *)
Lemma generate_markdown_ok :
  forall doc_name rows md_lines w,
    markdown_lines doc_name rows = Ok md_lines ->
    generate_markdown doc_name rows w = (Ok (strip (join nl md_lines)), w).
Proof.
  intros d rows l w H. unfold generate_markdown, try_except, lift.
  now rewrite H.
Qed.

Lemma generate_markdown_raised :
  forall doc_name rows e w,
    markdown_lines doc_name rows = Raised e ->
    generate_markdown doc_name rows w
    = (Raised (PyExc Exception (MarkdownFailedMsg (exc_str e)) (Some e)),
       {| io := io w; log := (log w ++ [LogErrorMarkdown e])%list |}).
Proof.
  intros d rows e w H. unfold generate_markdown, try_except, lift.
  now rewrite H.
Qed.




(** C9. The text [generate_markdown] returns, or the exception it
    raises, depends on the title and the rows only: it is the same from
    any two states of the world, it is the same when the call is
    repeated in the state the first call left, and the call sends
    nothing to the data store. *)
Theorem generate_markdown_deterministic :
  forall doc_name rows w1 w2,
    fst (generate_markdown doc_name rows w1)
    = fst (generate_markdown doc_name rows w2)
    /\ fst (generate_markdown doc_name rows (snd (generate_markdown doc_name rows w1)))
       = fst (generate_markdown doc_name rows w1)
    /\ io (snd (generate_markdown doc_name rows w1)) = io w1.
Proof.
  intros d rows w1 w2.
  destruct (markdown_lines d rows) as [l|e] eqn:E.
  - rewrite !(generate_markdown_ok d rows l _ E). simpl.
    rewrite ?(generate_markdown_ok d rows l _ E). auto.
  - rewrite !(generate_markdown_raised d rows e _ E). simpl.
    rewrite ?(generate_markdown_raised d rows e _ E). auto.
Qed.

Lemma generate_markdown_none :
  forall doc_name rows w,
    Exists (fun r => row_content r = None) rows ->
    generate_markdown doc_name rows w
    = (Raised markdown_failed,
       {| io := io w; log := (log w ++ [LogErrorMarkdown no_strip])%list |}).
Proof.
  intros d rows w H. apply generate_markdown_raised.
  unfold markdown_lines. now apply for_sections_none.
Qed.

(* ================================================================== *)
(** * The orchestrator *)
(* ================================================================== *)

Lemma get_sections_content_checked :
  forall db_conn doc_id l,
    valid_patterns l ->
    get_sections_content db_conn (Some doc_id) (Some l)
    = try_except (fetch_sections db_conn doc_id (strs l)) fetch_failed.
Proof.
  intros db d l [Hne Hall]. unfold get_sections_content. simpl.
  rewrite Hall. simpl. destruct l; [congruence | reflexivity].
Qed.

(** Whatever is raised inside the [try] block leaves the function as an
    [Exception] whose message quotes it and whose cause it is. *)
Lemma retrieval_errors_are_wrapped :
  forall db_conn doc_id l w e,
    valid_patterns l ->
    fst (get_sections_content db_conn (Some doc_id) (Some l) w) = Raised e ->
    exists inner,
      fst (fetch_sections db_conn doc_id (strs l) w) = Raised inner
      /\ e = PyExc Exception (RetrieveFailedMsg (exc_str inner)) (Some inner).
Proof.
  intros db d l w e Hv. rewrite (get_sections_content_checked db d l Hv).
  unfold try_except.
  destruct (fetch_sections db d (strs l) w) as [[md|inner] w']; simpl.
  - discriminate.
  - intros [= <-]. exists inner. auto.
Qed.

Lemma find_document_none :
  forall docs doc_id,
    (forall d, In d docs -> id d <> doc_id) ->
    find (fun d => N.eqb (id d) doc_id) docs = None.
Proof.
  intros docs x H. destruct (find _ docs) as [d|] eqn:E; [|reflexivity].
  apply find_some in E. destruct E as [Hin Heq]. apply N.eqb_eq in Heq.
  exfalso. exact (H d Hin Heq).
Qed.

Lemma matched_sections_none :
  forall tbl document_id patterns,
    (forall s pattern,
        In s tbl -> sec_document_id s = document_id -> In pattern patterns ->
        heading_matches (sec_heading s) pattern = false) ->
    matched_sections tbl document_id patterns = [].
Proof.
  intros tbl d pats H. unfold matched_sections.
  induction tbl as [|s tbl IH]; simpl; [reflexivity|].
  rewrite IH by (intros; eapply H; eauto; now right).
  destruct (N.eqb_spec (sec_document_id s) d) as [Hd|Hd]; simpl; [|reflexivity].
  destruct (existsb _ pats) eqn:E; [|reflexivity].
  apply existsb_exists in E. destruct E as [p [Hp Hm]].
  rewrite (H s p (or_introl eq_refl) Hd Hp) in Hm. discriminate.
Qed.

Ltac run_store Hf :=
  unfold try_except, fetch_sections, fetch_failed, bind, cursor,
    get_document_by_id, execute_path_fetch, execute_content_fetch,
    send, logger, ret, raise;
  rewrite ?Hf; simpl.

(** C8. The three argument checks raise a [ValueError] and leave the
    world as it was, nothing sent to the store and nothing logged.  The
    [ValueError] of an id that no document bears and the one of a
    pattern list that no heading matches do not leave the function: each
    is raised inside the [try] block and what the caller receives is a
    plain [Exception] with that [ValueError] as its cause.  Past the
    argument checks every exception that leaves has the class
    [Exception], none the class [ValueError]. *)
Theorem argument_and_lookup_errors :
  forall db_conn w,
    (forall section_list,
        get_sections_content db_conn None section_list w
        = (Raised (PyExc ValueError (Text "Missing required argument: doc_id") None),
           w))
    /\ (forall doc_id section_list,
           falsy_list section_list = true ->
           get_sections_content db_conn (Some doc_id) section_list w
           = (Raised (PyExc ValueError
                        (Text "Missing required argument: section_list") None),
              w))
    /\ (forall doc_id l,
           l <> [] ->
           Exists (fun v => isinstance_str v = false) l ->
           get_sections_content db_conn (Some doc_id) (Some l) w
           = (Raised (PyExc ValueError
                        (Text "All section identifiers must be strings") None),
              w))
    /\ (forall (doc_id : uuid) l,
           valid_patterns l ->
           (forall op, fault db_conn op = None) ->
           (forall d, In d (documents db_conn) -> id d <> doc_id) ->
           get_sections_content db_conn (Some doc_id) (Some l) w
           = (Raised (PyExc Exception
                        (RetrieveFailedMsg (DocumentNotFoundMsg doc_id))
                        (Some (PyExc ValueError (DocumentNotFoundMsg doc_id) None))),
              {| io := (io w ++ [EvGetDocument doc_id])%list;
                 log := (log w
                         ++ [LogErrorFetch
                               (PyExc ValueError (DocumentNotFoundMsg doc_id) None)])%list
              |}))
    /\ (forall (doc_id : uuid) l document,
           valid_patterns l ->
           (forall op, fault db_conn op = None) ->
           find (fun d => N.eqb (id d) doc_id) (documents db_conn) = Some document ->
           (forall s pattern,
               In s (section_table db_conn) ->
               sec_document_id s = id document ->
               In pattern (strs l) ->
               heading_matches (sec_heading s) pattern = false) ->
           let no_match :=
             PyExc ValueError
               (NoSectionsMsg (spec document) (version document) (strs l)) None in
           get_sections_content db_conn (Some doc_id) (Some l) w
           = (Raised (PyExc Exception (RetrieveFailedMsg (exc_str no_match))
                        (Some no_match)),
              {| io := (io w ++ [EvGetDocument doc_id;
                                 EvPathFetch (id document) (strs l)])%list;
                 log := (log w ++ [LogErrorFetch no_match])%list |}))
    /\ (forall (doc_id : uuid) l e,
           valid_patterns l ->
           fst (get_sections_content db_conn (Some doc_id) (Some l) w) = Raised e ->
           exc_cls e = Some Exception
           /\ exc_cls e <> Some ValueError
           /\ exists inner, exc_cause e = Some inner).
Proof.
  intros db w. split; [|split; [|split; [|split; [|split]]]].
  - intros sl. reflexivity.
  - intros d sl Hf. unfold get_sections_content. now rewrite Hf.
  - intros d l Hne Hex. unfold get_sections_content.
    destruct l as [|v l]; [congruence|].
    change (falsy_list (Some (v :: l))) with false.
    change (elements (Some (v :: l))) with (v :: l).
    assert (Hall : forallb isinstance_str (v :: l) = false).
    { apply not_true_is_false. intros Hall. rewrite forallb_forall in Hall.
      apply Exists_exists in Hex. destruct Hex as [x [Hx Hs]].
      rewrite (Hall x Hx) in Hs. discriminate. }
    rewrite Hall. reflexivity.
  - intros d l Hv Hf Hnone.
    rewrite (get_sections_content_checked db d l Hv).
    run_store Hf. rewrite (find_document_none _ _ Hnone). simpl.
    rewrite <- ?app_assoc. reflexivity.
  - intros d l doc Hv Hf Hfind Hno no_match.
    rewrite (get_sections_content_checked db d l Hv).
    run_store Hf. rewrite Hfind. simpl. rewrite ?Hf. simpl.
    unfold path_fetch_query. rewrite (matched_sections_none _ _ _ Hno). simpl.
    rewrite <- ?app_assoc. reflexivity.
  - intros d l e Hv He.
    destruct (retrieval_errors_are_wrapped db d l w e Hv He) as [inner [_ ->]].
    simpl. split; [reflexivity|]. split; [discriminate|]. exists inner. reflexivity.
Qed.

Lemma argument_and_lookup_errors_witness :
  get_sections_content store (Some 1%N) (Some []) w0
  = (Raised (PyExc ValueError (Text "Missing required argument: section_list") None),
     w0)
  /\ get_sections_content store (Some 1%N) (Some [PyStr "5.2"; PyInt 3]) w0
     = (Raised (PyExc ValueError (Text "All section identifiers must be strings") None),
        w0)
  /\ fst (get_sections_content store (Some 2%N) (Some [PyStr "5.2"]) w0)
     = Raised (PyExc Exception (RetrieveFailedMsg (DocumentNotFoundMsg 2))
                 (Some (PyExc ValueError (DocumentNotFoundMsg 2) None)))
  /\ fst (get_sections_content store (Some 1%N) (Some [PyStr "9.9"]) w0)
     = Raised (PyExc Exception
                 (RetrieveFailedMsg (NoSectionsMsg "38.331" "17.0.0" ["9.9"]))
                 (Some (PyExc ValueError
                          (NoSectionsMsg "38.331" "17.0.0" ["9.9"]) None)))
  /\ exc_cls (PyExc Exception
                (RetrieveFailedMsg (NoSectionsMsg "38.331" "17.0.0" ["9.9"]))
                (Some (PyExc ValueError
                         (NoSectionsMsg "38.331" "17.0.0" ["9.9"]) None)))
     = Some Exception.
Proof.
  destruct (argument_and_lookup_errors store w0) as [_ [H2 [H3 [H4 [H5 H6]]]]].
  split; [|split; [|split; [|split]]].
  - apply H2. reflexivity.
  - apply H3; [discriminate|]. constructor 2. constructor. reflexivity.
  - refine (f_equal fst (H4 2%N [PyStr "5.2"] _ _ _)).
    + split; [discriminate | reflexivity].
    + reflexivity.
    + intros d [<-|[]]. simpl. discriminate.
  - refine (f_equal fst (H5 1%N [PyStr "9.9"] doc_38331 _ _ _ _)).
    + split; [discriminate | reflexivity].
    + reflexivity.
    + reflexivity.
    + intros s p Hs _ Hp. simpl in Hs, Hp.
      destruct Hp as [<-|[]].
      destruct Hs as [<-|[<-|[<-|[]]]]; reflexivity.
  - refine (proj1 (H6 1%N [PyStr "9.9"] _ _ _)).
    + split; [discriminate | reflexivity].
    + reflexivity.
Defined.

(** No exception of [get_sections_content] is an [HTTPException], so
    the route handler answers every one of them with status 500. *)
Lemma route_answers_500 :
  forall conn document_id top_sections w e,
    fst (get_sections_content conn (Some document_id) top_sections w) = Raised e ->
    fst (get_latest_graph_by_procedure_id_and_entity conn
           (Some (document_id, top_sections)) w)
    = Raised (HTTPException 500 "Internal server error while fetching graph").
Proof.
  intros conn d tops w e. unfold get_latest_graph_by_procedure_id_and_entity.
  unfold get_sections_content.
  destruct (falsy_list tops); [intros _; reflexivity|].
  destruct (negb _); [intros _; reflexivity|].
  unfold try_except.
  destruct (fetch_sections conn d (strs (elements tops)) w) as [[md|inner] w'];
    simpl; [discriminate | reflexivity].
Qed.

(** C5. At the inputs "no heading matches", "no such document" and
    "the store fails", [get_sections_content] raises three exceptions of
    the one class [Exception]; the [ValueError] of the first two is only
    their cause.  The route handler answers the three with status 500. *)
Theorem not_found_raised_as_plain_exception :
  fst (get_sections_content store (Some 1%N) (Some [PyStr "9.9"]) w0)
  = Raised (PyExc Exception
              (RetrieveFailedMsg (NoSectionsMsg "38.331" "17.0.0" ["9.9"]))
              (Some (PyExc ValueError (NoSectionsMsg "38.331" "17.0.0" ["9.9"]) None)))
  /\ fst (get_sections_content store (Some 2%N) (Some [PyStr "5.2"]) w0)
     = Raised (PyExc Exception (RetrieveFailedMsg (DocumentNotFoundMsg 2))
                 (Some (PyExc ValueError (DocumentNotFoundMsg 2) None)))
  /\ fst (get_sections_content store_down (Some 1%N) (Some [PyStr "5.2"]) w0)
     = Raised (PyExc Exception (RetrieveFailedMsg (Text "the connection is lost"))
                 (Some connection_lost))
  /\ fst (get_latest_graph_by_procedure_id_and_entity store
            (Some (1%N, Some [PyStr "9.9"])) w0)
     = Raised (HTTPException 500 "Internal server error while fetching graph")
  /\ fst (get_latest_graph_by_procedure_id_and_entity store
            (Some (2%N, Some [PyStr "5.2"])) w0)
     = Raised (HTTPException 500 "Internal server error while fetching graph")
  /\ fst (get_latest_graph_by_procedure_id_and_entity store_down
            (Some (1%N, Some [PyStr "5.2"])) w0)
     = Raised (HTTPException 500 "Internal server error while fetching graph").
Proof. repeat split; reflexivity. Qed.

(** C10. A row whose content is [None] makes [generate_markdown] raise,
    whatever the other rows are, and with it the whole retrieval: the
    store [store_null] holds such a section below the matched one, after
    two sections that could be rendered.  When every content is a string
    the renderer returns a text. *)
Theorem none_content_fails_rendering :
  (forall doc_name rows w,
      Exists (fun r => row_content r = None) rows ->
      fst (generate_markdown doc_name rows w) = Raised markdown_failed)
  /\ (forall doc_name rows w,
         has_str_content rows ->
         exists md, generate_markdown doc_name rows w = (Ok md, w))
  /\ map sec_content (subtree_sections (section_table store_null) 1 [["A"]])
     = [Some "Intro text"; Some "Detail"; None]
  /\ fst (get_sections_content store_null (Some 1%N) (Some [PyStr "5.2"]) w0)
     = Raised (PyExc Exception (RetrieveFailedMsg (exc_str markdown_failed))
                 (Some markdown_failed)).
Proof.
  split; [|split; [|split]].
  - intros d rows w H. now rewrite (generate_markdown_none d rows w H).
  - intros d rows w H. eexists. apply generate_markdown_ok.
    unfold markdown_lines. apply (for_sections_str _ _ H).
  - reflexivity.
  - reflexivity.
Qed.

Lemma none_content_fails_rendering_witness :
  fst (generate_markdown "T" [row_padded; row_none; row_next] w0)
  = Raised markdown_failed
  /\ exists md, generate_markdown "T" [row_padded; row_next] w0 = (Ok md, w0).
Proof.
  destruct none_content_fails_rendering as [H1 [H2 _]]. split.
  - apply H1. constructor 2. constructor. reflexivity.
  - apply H2. repeat constructor; simpl; discriminate.
Defined.

(** C4. The end-to-end scenario: over the store of the three sections
    [A], [A.1] and [B], title ["38.331"] and patterns [["5.2"]], the call
    returns the rendered text of [A] and [A.1]; the content and the
    heading of [B] do not occur in it. *)
Theorem end_to_end_scenario :
  let expected :=
    "# 38.331" ++ nl ++ nl ++ "# 5.2 Random Access" ++ nl ++ nl ++ "Intro text"
    ++ nl ++ nl ++ "## 5.2.1 Contention" ++ nl ++ nl ++ "Detail" in
  fst (get_sections_content store (Some 1%N) (Some [PyStr "5.2"]) w0) = Ok expected
  /\ io (snd (get_sections_content store (Some 1%N) (Some [PyStr "5.2"]) w0))
     = [EvGetDocument 1; EvPathFetch 1 ["5.2"]; EvContentFetch 1 [["A"]]]
  /\ contains "Unrelated" expected = false
  /\ contains "5.3 Other" expected = false.
Proof. repeat split; reflexivity. Qed.

(* ================================================================== *)
(** * Further properties of the pattern-matching stage *)
(* ================================================================== *)

Lemma existsb_incl :
  forall (A : Type) (f : A -> bool) l l',
    incl l l' -> existsb f l = true -> existsb f l' = true.
Proof.
  intros A f l l' Hi H. apply existsb_exists in H. destruct H as [x [Hx Hf]].
  apply existsb_exists. exists x. auto.
Qed.

Lemma existsb_same_elements :
  forall (A : Type) (f : A -> bool) l l',
    incl l l' -> incl l' l -> existsb f l = existsb f l'.
Proof.
  intros A f l l' H H'. apply eq_true_iff_eq. split; now apply existsb_incl.
Qed.

(** X1. When no pattern holds a character special to LIKE, the first
    statement selects exactly the sections of the document whose heading
    begins, up to case, with one of the patterns followed by a space. *)
Theorem plain_patterns_select_by_prefix :
  forall tbl document_id patterns s,
    Forall (fun p => plain_pattern p = true) patterns ->
    (In s (matched_sections tbl document_id patterns)
     <-> In s tbl /\ sec_document_id s = document_id
         /\ exists p, In p patterns /\ begins_with_token (sec_heading s) p = true).
Proof.
  intros tbl d ps s Hplain. rewrite matched_sections_spec.
  rewrite Forall_forall in Hplain. split.
  - intros [Hin [Hd [p [Hp Hm]]]]. split; [exact Hin|]. split; [exact Hd|].
    exists p. split; [exact Hp|].
    now rewrite <- (plain_pattern_matches_token _ _ (Hplain p Hp)).
  - intros [Hin [Hd [p [Hp Hm]]]]. split; [exact Hin|]. split; [exact Hd|].
    exists p. split; [exact Hp|].
    now rewrite (plain_pattern_matches_token _ _ (Hplain p Hp)).
Qed.

Lemma plain_patterns_select_by_prefix_witness :
  In sec_A (matched_sections (section_table store) 1 ["5.2"; "9.9"]).
Proof.
  apply (plain_patterns_select_by_prefix (section_table store) 1 ["5.2"; "9.9"] sec_A).
  - repeat constructor.
  - split; [simpl; auto|]. split; [reflexivity|].
    exists "5.2". split; [simpl; auto | reflexivity].
Defined.

(** X2. The sections the first statement selects grow with the pattern
    list, and two lists with the same patterns, in any order and with
    any repetition, select the same sections in the same order. *)
Theorem selection_depends_on_pattern_set :
  forall tbl document_id patterns patterns',
    incl patterns patterns' ->
    incl (matched_sections tbl document_id patterns)
         (matched_sections tbl document_id patterns')
    /\ (incl patterns' patterns ->
        matched_sections tbl document_id patterns
        = matched_sections tbl document_id patterns').
Proof.
  intros tbl d ps ps' Hi. split.
  - intros s Hs. apply matched_sections_spec in Hs.
    destruct Hs as [Hin [Hd [p [Hp Hm]]]]. apply matched_sections_spec.
    split; [exact Hin|]. split; [exact Hd|]. exists p. auto.
  - intros Hi'. unfold matched_sections. apply filter_ext. intros s.
    f_equal. now apply existsb_same_elements.
Qed.

Lemma selection_depends_on_pattern_set_witness :
  matched_sections (section_table store) 1 ["5.2"; "5.3"]
  = matched_sections (section_table store) 1 ["5.3"; "5.2"; "5.3"].
Proof.
  apply (selection_depends_on_pattern_set (section_table store) 1
           ["5.2"; "5.3"] ["5.3"; "5.2"; "5.3"]).
  - intros p [<-|[<-|[]]]; simpl; auto.
  - intros p [<-|[<-|[<-|[]]]]; simpl; auto.
Defined.

(** X3. Whatever the caller's pattern, the LIKE pattern of the first
    statement is well formed: it reads as a sequence of items that ends
    with the [%] the statement appends, so the statement cannot fail on
    a trailing escape character. *)
Theorem query_pattern_is_well_formed :
  forall pattern,
    exists ts,
      like_tokens false (lower (pattern ++ " %")) = Some (ts ++ [AnyString])%list
      /\ forall heading,
           heading_matches heading pattern
           = like_match (ts ++ [AnyString]) (lower heading).
Proof.
  intros p. rewrite lower_app.
  destruct (like_tokens_query_pattern (lower p) false) as [ts Hts].
  exists ts. split; [exact Hts|]. intros h.
  unfold heading_matches, text_ilike, text_like. rewrite lower_app.
  change (lower " %") with " %". now rewrite Hts.
Qed.

(* ================================================================== *)
(** * Further properties of the subtree-expansion stage *)
(* ================================================================== *)

Lemma is_prefix_trans :
  forall (A : Type) (p q r : list A), is_prefix p q -> is_prefix q r -> is_prefix p r.
Proof.
  intros A p q r H. revert r. induction H as [a|x p a _ IH]; intros r Hr.
  - constructor.
  - inversion Hr; subst. constructor. now apply IH.
Qed.

Lemma isDescendantOrSelf_trans :
  forall a b c,
    isDescendantOrSelf a b = true -> isDescendantOrSelf b c = true ->
    isDescendantOrSelf a c = true.
Proof.
  unfold isDescendantOrSelf. intros a b c Hab Hbc.
  apply inner_isparent_prefix. apply inner_isparent_prefix in Hab, Hbc.
  now apply is_prefix_trans with b.
Qed.

Lemma existsb_isparent_covered :
  forall M M' p,
    covered_by M M' ->
    existsb (fun m => inner_isparent p m) M = true ->
    existsb (fun m => inner_isparent p m) M' = true.
Proof.
  intros M M' p Hc H. apply existsb_exists in H. destruct H as [m [Hm Hp]].
  destruct (Hc m Hm) as [m' [Hm' Hd]]. apply existsb_exists. exists m'.
  split; [exact Hm'|]. exact (isDescendantOrSelf_trans _ _ _ Hp Hd).
Qed.

Lemma subtree_sections_covered :
  forall tbl document_id paths paths',
    covered_by paths paths' ->
    covered_by paths' paths ->
    subtree_sections tbl document_id paths = subtree_sections tbl document_id paths'.
Proof.
  intros tbl d M M' H1 H2. unfold subtree_sections. f_equal.
  apply filter_ext. intros s. f_equal.
  apply eq_true_iff_eq. split; now apply existsb_isparent_covered.
Qed.

(** X4. The second statement returns the same rows for two lists of
    matched paths that cover each other: the order and the repetition of
    the paths do not matter, and a matched path that lies below another
    matched path adds nothing. *)
Theorem expansion_depends_on_covered_paths :
  forall tbl document_id paths paths',
    covered_by paths paths' ->
    covered_by paths' paths ->
    content_fetch_query tbl document_id paths
    = content_fetch_query tbl document_id paths'.
Proof.
  intros tbl d M M' H1 H2. unfold content_fetch_query.
  now rewrite (subtree_sections_covered tbl d M M' H1 H2).
Qed.

Lemma expansion_depends_on_covered_paths_witness :
  content_fetch_query (section_table store) 1 [["A"; "1"]; ["A"]; ["A"]]
  = content_fetch_query (section_table store) 1 [["A"]].
Proof.
  apply expansion_depends_on_covered_paths.
  - intros m [<-|[<-|[<-|[]]]]; exists ["A"]; split; simpl; auto.
  - intros m [<-|[]]. exists ["A"]. split; simpl; auto.
Defined.

Lemma matched_in_subtree :
  forall tbl d pats s,
    In s (matched_sections tbl d pats) ->
    In s (subtree_sections tbl d (map sec_path (matched_sections tbl d pats))).
Proof.
  intros tbl d pats s Hs. apply subtree_sections_spec.
  pose proof Hs as Hm. apply matched_sections_spec in Hm.
  destruct Hm as [Hin [Hd _]]. split; [exact Hin|]. split; [exact Hd|].
  exists (sec_path s). split; [now apply in_map | apply isDescendantOrSelf_refl].
Qed.

Lemma Permutation_filter_compat :
  forall (A : Type) (f : A -> bool) l l',
    Permutation l l' -> Permutation (filter f l) (filter f l').
Proof.
  intros A f l l' H. induction H; simpl.
  - constructor.
  - destruct (f x); [now constructor | assumption].
  - destruct (f x), (f y); try apply Permutation_refl.
    apply perm_swap.
  - eapply perm_trans; eassumption.
Qed.

Lemma same_path_same_section :
  forall l a b,
    NoDup (map sec_path l) -> In a l -> In b l -> sec_path a = sec_path b -> a = b.
Proof.
  induction l as [|x l IH]; intros a b Hnd Ha Hb Hp; [inversion Ha|].
  simpl in Hnd. inversion Hnd as [|? ? Hx Hnd']; subst.
  destruct Ha as [<-|Ha]; destruct Hb as [<-|Hb].
  - reflexivity.
  - exfalso. apply Hx. rewrite Hp. now apply in_map.
  - exfalso. apply Hx. rewrite <- Hp. now apply in_map.
  - now apply IH.
Qed.

(** Two sorted lists of the same sections, no two of them on one path,
    are the same list. *)
Lemma sorted_unique :
  forall l l',
    StronglySorted sec_le l -> StronglySorted sec_le l' ->
    Permutation l l' -> NoDup (map sec_path l) -> l = l'.
Proof.
  induction l as [|a l IH]; intros l' Hs Hs' Hp Hnd.
  - apply Permutation_nil in Hp. now subst.
  - destruct l' as [|b l'].
    + apply Permutation_sym, Permutation_nil in Hp. discriminate.
    + inversion Hs as [|? ? Hsl Ha]; subst. inversion Hs' as [|? ? Hsl' Hb]; subst.
      rewrite Forall_forall in Ha, Hb.
      assert (Hab : a = b).
      { assert (Hbin : In b (a :: l)).
        { apply (Permutation_in _ (Permutation_sym Hp)). now left. }
        assert (Hain : In a (b :: l')).
        { apply (Permutation_in _ Hp). now left. }
        apply (same_path_same_section (a :: l) a b Hnd (or_introl eq_refl) Hbin).
        apply path_le_antisym.
        - destruct Hbin as [<-|Hbin]; [apply path_le_refl | apply Ha, Hbin].
        - destruct Hain as [<-|Hain]; [apply path_le_refl | apply Hb, Hain]. }
      subst b. f_equal. apply IH; try assumption.
      * now apply Permutation_cons_inv with a.
      * simpl in Hnd. now inversion Hnd.
Qed.

Lemma order_by_path_unique :
  forall l l',
    Permutation l l' -> NoDup (map sec_path l) ->
    order_by_path l = order_by_path l'.
Proof.
  intros l l' Hp Hnd. apply sorted_unique.
  - apply order_by_path_sorted.
  - apply order_by_path_sorted.
  - eapply perm_trans; [apply Permutation_sym, order_by_path_perm|].
    eapply perm_trans; [exact Hp | apply order_by_path_perm].
  - eapply Permutation_NoDup; [|exact Hnd].
    apply Permutation_map, order_by_path_perm.
Qed.

Lemma NoDup_map_filter_and :
  forall (p q : section -> bool) l,
    NoDup (map sec_path (filter p l)) ->
    NoDup (map sec_path (filter (fun s => p s && q s) l)).
Proof.
  intros p q l. induction l as [|x l IH]; simpl; intros H; [constructor|].
  destruct (p x) eqn:Ep; simpl in *.
  - inversion H as [|? ? Hx Hnd]; subst. destruct (q x); simpl.
    + constructor; [|now apply IH]. intros Hin. apply Hx.
      apply in_map_iff in Hin. destruct Hin as [y [Hy Hin]].
      apply filter_In in Hin. destruct Hin as [Hin Hpq].
      apply andb_true_iff in Hpq. destruct Hpq as [Hpy _].
      rewrite <- Hy. apply in_map. apply filter_In. auto.
    + now apply IH.
  - now apply IH.
Qed.

Lemma subtree_sections_table_order :
  forall tbl tbl' document_id paths,
    Permutation tbl tbl' ->
    unique_paths tbl document_id ->
    subtree_sections tbl document_id paths = subtree_sections tbl' document_id paths.
Proof.
  intros tbl tbl' d M Hp Hu. unfold subtree_sections.
  apply order_by_path_unique.
  - now apply Permutation_filter_compat.
  - apply (NoDup_map_filter_and
             (fun s => N.eqb (sec_document_id s) d)
             (fun s => existsb (fun m => inner_isparent (sec_path s) m) M)).
    exact Hu.
Qed.

(** X5. When the sections of the document lie on distinct paths, the
    rows of the second statement and their order do not depend on the
    order in which the table holds its rows. *)
Theorem expansion_ignores_table_order :
  forall tbl tbl' document_id paths,
    Permutation tbl tbl' ->
    unique_paths tbl document_id ->
    content_fetch_query tbl document_id paths
    = content_fetch_query tbl' document_id paths.
Proof.
  intros tbl tbl' d M Hp Hu. unfold content_fetch_query.
  now rewrite (subtree_sections_table_order tbl tbl' d M Hp Hu).
Qed.

Lemma store_shuffled_perm :
  Permutation (section_table store) (section_table store_shuffled).
Proof.
  simpl. eapply perm_trans; [apply perm_swap|].
  eapply perm_trans; [apply perm_skip, perm_swap|]. apply perm_swap.
Qed.

Lemma store_unique_paths : forall d, unique_paths (section_table store) d.
Proof.
  intros d. unfold unique_paths, sections_of.
  destruct (N.eq_dec d 1) as [->|Hne].
  - simpl. repeat constructor; simpl; intuition discriminate.
  - assert (E : N.eqb 1 d = false) by (apply N.eqb_neq; congruence).
    unfold store, section_table, filter, sec_A, sec_A1, sec_B, sec_document_id.
    rewrite !E. constructor.
Qed.

Lemma expansion_ignores_table_order_witness :
  content_fetch_query (section_table store) 1 [["A"]]
  = content_fetch_query (section_table store_shuffled) 1 [["A"]].
Proof.
  apply expansion_ignores_table_order.
  - exact store_shuffled_perm.
  - exact (store_unique_paths 1%N).
Defined.

(** X6. Every section the first statement selects is among the rows of
    the second statement run on the selected paths: the expansion never
    loses a matched section. *)
Theorem matched_sections_are_expanded :
  forall tbl document_id patterns s,
    In s (matched_sections tbl document_id patterns) ->
    In (row_of s)
       (content_fetch_query tbl document_id
          (map pr_path (path_fetch_query tbl document_id patterns))).
Proof.
  intros tbl d pats s Hs. unfold content_fetch_query, path_fetch_query.
  rewrite map_map. simpl.
  apply (in_map row_of). now apply matched_in_subtree.
Qed.

Lemma matched_sections_are_expanded_witness :
  In (row_of sec_A)
     (content_fetch_query (section_table store) 1
        (map pr_path (path_fetch_query (section_table store) 1 ["5.2"]))).
Proof.
  apply matched_sections_are_expanded. simpl. auto.
Defined.

(* ================================================================== *)
(** * Further properties of the renderer *)
(* ================================================================== *)

Lemma rstrip_idempotent : forall s, rstrip (rstrip s) = rstrip s.
Proof.
  induction s as [|c s IH]; simpl; [reflexivity|].
  destruct (rstrip s) as [|x r] eqn:E.
  - destruct (is_space c) eqn:Ec; simpl; [reflexivity|]. now rewrite Ec.
  - simpl in IH |- *. destruct (rstrip r) eqn:Er.
    + destruct (is_space x); [discriminate|]. now rewrite IH.
    + now rewrite IH.
Qed.

Lemma rstrip_keeps_head :
  forall c s, is_space c = false -> rstrip (String c s) = String c (rstrip s).
Proof.
  intros c s Hc. simpl. destruct (rstrip s); [now rewrite Hc | reflexivity].
Qed.

Lemma lstrip_head :
  forall s,
    lstrip s = EmptyString
    \/ exists c r, lstrip s = String c r /\ is_space c = false.
Proof.
  induction s as [|c s IH]; simpl; [now left|].
  destruct (is_space c) eqn:Ec; [exact IH|]. right. eauto.
Qed.

Lemma lstrip_fixed :
  forall c s, is_space c = false -> lstrip (String c s) = String c s.
Proof. intros c s Hc. simpl. now rewrite Hc. Qed.

Lemma strip_idempotent : forall s, strip (strip s) = strip s.
Proof.
  intros s. unfold strip. destruct (lstrip_head s) as [E|[c [r [E Hc]]]]; rewrite E.
  - reflexivity.
  - rewrite (rstrip_keeps_head c r Hc), (lstrip_fixed c _ Hc).
    rewrite <- (rstrip_keeps_head c r Hc). apply rstrip_idempotent.
Qed.

Lemma strip_title_line :
  forall doc_name rest,
    exists tail,
      strip (join nl (("# " ++ doc_name)%string :: rest)) = String "#" tail.
Proof.
  intros t rest. unfold join, strip.
  assert (H : exists u, String.concat nl (("# " ++ t)%string :: rest) = String "#" u).
  { simpl. destruct rest; eexists; reflexivity. }
  destruct H as [u ->]. rewrite lstrip_fixed by reflexivity.
  rewrite rstrip_keeps_head by reflexivity. eauto.
Qed.

Lemma markdown_lines_ok_inv :
  forall doc_name rows lines,
    markdown_lines doc_name rows = Ok lines ->
    has_str_content rows
    /\ lines = ([("# " ++ doc_name)%string; ""] ++ blocks rows)%list.
Proof.
  intros t rows lines H. destruct (has_str_content_dec rows) as [Hs|Hn].
  - split; [exact Hs|]. unfold markdown_lines in H.
    rewrite (for_sections_str _ _ Hs) in H. now injection H as <-.
  - unfold markdown_lines in H. rewrite (for_sections_none _ _ Hn) in H.
    discriminate.
Qed.

(** X7. A text [generate_markdown] returns is trimmed, that is, it is
    left unchanged by another [strip], and it starts with the [#] of the
    title line; every content of the rows was a string. *)
Theorem rendered_text_is_trimmed :
  forall doc_name rows w md,
    fst (generate_markdown doc_name rows w) = Ok md ->
    strip md = md
    /\ (exists tail, md = String "#" tail)
    /\ has_str_content rows.
Proof.
  intros t rows w md H.
  destruct (markdown_lines t rows) as [lines|e] eqn:E.
  - rewrite (generate_markdown_ok t rows lines w E) in H. simpl in H.
    injection H as <-. split; [apply strip_idempotent|].
    destruct (markdown_lines_ok_inv _ _ _ E) as [Hs ->].
    split; [apply strip_title_line | exact Hs].
  - rewrite (generate_markdown_raised t rows e w E) in H. discriminate.
Qed.

Lemma rendered_text_is_trimmed_witness :
  strip ("# T" ++ nl ++ nl ++ "# A" ++ nl ++ nl ++ " x " ++ nl ++ nl
         ++ "# B" ++ nl ++ nl ++ "y")
  = "# T" ++ nl ++ nl ++ "# A" ++ nl ++ nl ++ " x " ++ nl ++ nl
    ++ "# B" ++ nl ++ nl ++ "y".
Proof.
  apply (rendered_text_is_trimmed "T" [row_padded; row_next] w0). reflexivity.
Defined.

(* ================================================================== *)
(** * Further properties of [get_sections_content] *)
(* ================================================================== *)

(** The stages of [fetch_sections], one goal per way out of it. *)
Ltac walk_stages :=
  unfold fetch_sections, bind, cursor, get_document_by_id, execute_path_fetch,
    execute_content_fetch, send, logger, ret, raise;
  destruct (fault _ OpCursor) as [?e|] eqn:HfCursor;
  [ | simpl;
      destruct (fault _ OpGetDocument) as [?e|] eqn:HfGet;
      [ | destruct (find _ _) as [?doc|] eqn:Hfind;
          [ simpl;
            destruct (fault _ OpPathFetch) as [?e|] eqn:HfPath;
            [ | destruct (path_fetch_query _ _ _) as [|?r ?rs] eqn:Hsections;
                [ | simpl;
                    destruct (fault _ OpContentFetch) as [?e|] eqn:HfContent;
                    [ | destruct (content_fetch_query _ _ _) as [|?c ?cs] eqn:Hrows;
                        [ | simpl;
                            match goal with
                            | |- context [generate_markdown ?t ?rows ?w] =>
                                destruct (markdown_lines t rows) as [?lines|?e] eqn:Hlines;
                                [ rewrite (generate_markdown_ok t rows _ w Hlines)
                                | rewrite (generate_markdown_raised t rows _ w Hlines) ]
                            end ] ] ] ]
          | ] ] ];
  simpl.

Lemma map_pr_path_query :
  forall tbl d pats,
    map pr_path (path_fetch_query tbl d pats)
    = map sec_path (matched_sections tbl d pats).
Proof. intros. unfold path_fetch_query. rewrite map_map. reflexivity. Qed.

Lemma path_fetch_query_headings :
  forall tbl d pats,
    map pr_heading (path_fetch_query tbl d pats)
    = map sec_heading (matched_sections tbl d pats).
Proof. intros. unfold path_fetch_query. rewrite map_map. reflexivity. Qed.

Lemma path_fetch_query_length :
  forall tbl d pats,
    List.length (path_fetch_query tbl d pats)
    = List.length (matched_sections tbl d pats).
Proof. intros. unfold path_fetch_query. apply length_map. Qed.

(** X8. Whatever the arguments and whatever the store does, a call
    sends at most three statements and in this order: the document
    lookup, the pattern query, the content query.  A statement is sent
    only when the arguments passed the three checks; the pattern query
    is sent only for a document that was found, the content query only
    for a non-empty list of matched paths.  Arguments that fail a check,
    a missing id, an absent or empty list, an element that is not a
    string, send nothing. *)
Theorem statements_in_order :
  forall db_conn doc_id section_list w,
    exists evs,
      io (snd (get_sections_content db_conn doc_id section_list w))
      = (io w ++ evs)%list
      /\ (evs = []
          \/ exists (d : uuid) l,
               doc_id = Some d /\ section_list = Some l /\ valid_patterns l
               /\ (evs = [EvGetDocument d]
                   \/ exists doc,
                        find (fun x => N.eqb (id x) d) (documents db_conn) = Some doc
                        /\ let pats := strs l in
                           let paths :=
                             map sec_path
                               (matched_sections (section_table db_conn) (id doc)
                                  pats) in
                           evs = [EvGetDocument d; EvPathFetch (id doc) pats]
                           \/ (paths <> []
                               /\ evs = [EvGetDocument d; EvPathFetch (id doc) pats;
                                         EvContentFetch (id doc) paths])))
      /\ (doc_id = None
          \/ falsy_list section_list = true
          \/ forallb isinstance_str (elements section_list) = false ->
          evs = []).
Proof.
  intros db doc_id sl w. unfold get_sections_content.
  destruct doc_id as [d|];
    [|exists []; rewrite app_nil_r; auto].
  destruct sl as [[|v l]|];
    try (exists []; rewrite app_nil_r; auto; fail).
  cbn [falsy_list elements].
  destruct (forallb isinstance_str (v :: l)) eqn:Hall;
    [|exists []; rewrite app_nil_r; auto].
  assert (Hv : valid_patterns (v :: l)) by (split; [discriminate | exact Hall]).
  assert (Hchecks : Some d = None \/ false = true \/ true = false -> False).
  { intros [H|[H|H]]; discriminate. }
  cbn [negb]. unfold try_except, fetch_failed.
  remember (strs (v :: l)) as pats eqn:Hpats.
  walk_stages.
  all: try (exists []; rewrite app_nil_r; split; [reflexivity|];
            split; [left; reflexivity | reflexivity]; fail).
  all: try (exists [EvGetDocument d]; split; [reflexivity|];
            split; [|intros H; elim (Hchecks H)];
            right; exists d, (v :: l); split; [reflexivity|];
            split; [reflexivity|]; split; [exact Hv|]; left; reflexivity).
  all: try (eexists; split; [rewrite <- !app_assoc; reflexivity|];
            split; [|intros H; elim (Hchecks H)];
            right; exists d, (v :: l); split; [reflexivity|];
            split; [reflexivity|]; split; [exact Hv|];
            right; exists doc; split; [exact Hfind|];
            cbv zeta; rewrite <- Hpats; left; reflexivity).
  all: eexists; (split; [rewrite <- !app_assoc; reflexivity|]);
    (split; [|intros H; elim (Hchecks H)]);
    right; exists d, (v :: l); (split; [reflexivity|]);
    (split; [reflexivity|]); (split; [exact Hv|]);
    right; exists doc; (split; [exact Hfind|]);
    cbv zeta; rewrite <- Hpats; right;
    rewrite <- (map_pr_path_query (section_table db) (id doc)), Hsections;
    split; [discriminate | reflexivity].
Qed.

Lemma expansion_not_empty :
  forall tbl d pats,
    path_fetch_query tbl d pats <> [] ->
    content_fetch_query tbl d (map pr_path (path_fetch_query tbl d pats)) <> [].
Proof.
  intros tbl d pats Hne. rewrite map_pr_path_query.
  unfold path_fetch_query in Hne. unfold content_fetch_query.
  destruct (matched_sections tbl d pats) as [|s ms] eqn:E; [now elim Hne|].
  assert (Hin : In s (subtree_sections tbl d (map sec_path (s :: ms)))).
  { rewrite <- E. apply matched_in_subtree. rewrite E. now left. }
  destruct (subtree_sections tbl d (map sec_path (s :: ms))); [inversion Hin|].
  discriminate.
Qed.

(** X9. Over a store that answers every statement, the branch "Failed
    to perform hierarchical search" is never taken: the rows of the
    content query include the matched sections, so they are not empty
    when the pattern query returned a row. *)
Theorem hierarchical_failure_unreachable :
  forall db_conn doc_id section_list w spec_ version_ patterns,
    (forall op, fault db_conn op = None) ->
    let unreachable :=
      PyExc ValueError (HierarchicalSearchMsg spec_ version_ patterns) None in
    fst (get_sections_content db_conn doc_id section_list w)
    <> Raised (PyExc Exception (RetrieveFailedMsg (exc_str unreachable))
                 (Some unreachable)).
Proof.
  intros db doc_id sl w sp v ps Hf unreachable. unfold get_sections_content.
  destruct doc_id as [d|]; [|discriminate].
  destruct (falsy_list sl); [discriminate|].
  destruct (negb _); [discriminate|].
  unfold try_except, fetch_failed.
  walk_stages; try discriminate; try congruence.
  exfalso.
  apply (expansion_not_empty (section_table db) (id doc) (strs (elements sl))).
  - rewrite Hsections. discriminate.
  - rewrite Hsections. exact Hrows.
Qed.

Lemma hierarchical_failure_unreachable_witness :
  (forall op, fault store op = None)
  /\ fst (get_sections_content store (Some 1%N) (Some [PyStr "5.2"]) w0)
     <> Raised (PyExc Exception
                  (RetrieveFailedMsg (HierarchicalSearchMsg "38.331" "17.0.0" ["5.2"]))
                  (Some (PyExc ValueError
                           (HierarchicalSearchMsg "38.331" "17.0.0" ["5.2"]) None))).
Proof.
  split; [reflexivity|].
  apply (hierarchical_failure_unreachable store (Some 1%N) (Some [PyStr "5.2"]) w0
           "38.331" "17.0.0" ["5.2"]).
  reflexivity.
Defined.

(** X10. When a call that passed the argument checks raises, the
    exception is the [Exception] built from the one raised inside the
    [try] block, which is its cause and whose text its message quotes,
    and the last record handed to the logger is the error record of
    that inner exception; the statements sent are those of the block. *)
Theorem failures_logged_and_wrapped :
  forall db_conn (d : uuid) l w e,
    valid_patterns l ->
    fst (get_sections_content db_conn (Some d) (Some l) w) = Raised e ->
    exists inner w',
      fetch_sections db_conn d (strs l) w = (Raised inner, w')
      /\ e = PyExc Exception (RetrieveFailedMsg (exc_str inner)) (Some inner)
      /\ snd (get_sections_content db_conn (Some d) (Some l) w)
         = {| io := io w'; log := (log w' ++ [LogErrorFetch inner])%list |}.
Proof.
  intros db d l w e Hv. rewrite (get_sections_content_checked db d l Hv).
  unfold try_except.
  destruct (fetch_sections db d (strs l) w) as [[md|inner] w'] eqn:E; simpl.
  - discriminate.
  - intros [= <-]. exists inner, w'. auto.
Qed.

Lemma failures_logged_and_wrapped_witness :
  exists inner w',
    fetch_sections store_down 1 (strs [PyStr "5.2"]) w0 = (Raised inner, w')
    /\ PyExc Exception (RetrieveFailedMsg (Text "the connection is lost"))
         (Some connection_lost)
       = PyExc Exception (RetrieveFailedMsg (exc_str inner)) (Some inner)
    /\ snd (get_sections_content store_down (Some 1%N) (Some [PyStr "5.2"]) w0)
       = {| io := io w'; log := (log w' ++ [LogErrorFetch inner])%list |}.
Proof.
  apply (failures_logged_and_wrapped store_down 1%N [PyStr "5.2"] w0).
  - split; [discriminate | reflexivity].
  - reflexivity.
Defined.

Lemma fetch_sections_success :
  forall db (d : uuid) pats w doc sections rows lines,
    (forall op, fault db op = None) ->
    find (fun x => N.eqb (id x) d) (documents db) = Some doc ->
    path_fetch_query (section_table db) (id doc) pats = sections ->
    sections <> [] ->
    content_fetch_query (section_table db) (id doc) (map pr_path sections) = rows ->
    rows <> [] ->
    markdown_lines (spec doc) rows = Ok lines ->
    fetch_sections db d pats w
    = (Ok (strip (join nl lines)),
       {| io := (io w ++ [EvGetDocument d; EvPathFetch (id doc) pats;
                          EvContentFetch (id doc) (map pr_path sections)])%list;
          log := (log w
                  ++ [LogInfoFound (List.length sections) (spec doc) (version doc);
                      LogDebugMatched (spec doc) (version doc)
                        (map pr_heading sections);
                      LogDebugRetrieved (List.length rows) (spec doc) (version doc)
                        (map pr_path sections)])%list |}).
Proof.
  intros db d pats w doc sections rows lines Hf Hdoc Hs Hsne Hr Hrne Hlines.
  unfold fetch_sections, cursor, get_document_by_id, execute_path_fetch,
    execute_content_fetch, send, logger, ret, raise, bind.
  rewrite !Hf. rewrite Hdoc. rewrite Hs.
  destruct sections as [|r rs]; [congruence|]. cbn [is_empty].
  rewrite Hr. destruct rows as [|c cs]; [congruence|]. cbn [is_empty io log].
  rewrite (generate_markdown_ok _ _ _ _ Hlines).
  rewrite <- !app_assoc. reflexivity.
Qed.

(** X11. Over a store that answers every statement, for a document that
    is found, patterns that select at least one section and sections
    whose contents are strings, the call returns the trimmed text of the
    title line and of the blocks of the expanded sections in document
    order; it sends the three statements and hands the logger three
    records, none of them an error. *)
Theorem retrieval_success :
  forall db_conn (d : uuid) l w doc,
    valid_patterns l ->
    (forall op, fault db_conn op = None) ->
    find (fun x => N.eqb (id x) d) (documents db_conn) = Some doc ->
    let matched := matched_sections (section_table db_conn) (id doc) (strs l) in
    let paths := map sec_path matched in
    let rows := map row_of (subtree_sections (section_table db_conn) (id doc) paths) in
    matched <> [] ->
    has_str_content rows ->
    get_sections_content db_conn (Some d) (Some l) w
    = (Ok (strip (join nl ([("# " ++ spec doc)%string; ""] ++ blocks rows))),
       {| io := (io w ++ [EvGetDocument d; EvPathFetch (id doc) (strs l);
                          EvContentFetch (id doc) paths])%list;
          log := (log w
                  ++ [LogInfoFound (List.length matched) (spec doc) (version doc);
                      LogDebugMatched (spec doc) (version doc)
                        (map sec_heading matched);
                      LogDebugRetrieved (List.length rows) (spec doc) (version doc)
                        paths])%list |}).
Proof.
  intros db d l w doc Hv Hf Hdoc matched paths rows Hne Hstr.
  rewrite (get_sections_content_checked db d l Hv).
  assert (Hq : path_fetch_query (section_table db) (id doc) (strs l) <> []).
  { intros E. apply Hne. unfold path_fetch_query in E.
    apply map_eq_nil in E. exact E. }
  assert (Hrows : content_fetch_query (section_table db) (id doc)
                    (map pr_path (path_fetch_query (section_table db) (id doc) (strs l)))
                  = rows).
  { rewrite map_pr_path_query. reflexivity. }
  assert (Hrne : rows <> []).
  { rewrite <- Hrows. now apply expansion_not_empty. }
  assert (Hlines : markdown_lines (spec doc) rows
                   = Ok ([("# " ++ spec doc)%string; ""] ++ blocks rows)%list).
  { unfold markdown_lines. now rewrite (for_sections_str _ _ Hstr). }
  unfold try_except.
  rewrite (fetch_sections_success db d (strs l) w doc _ _ _ Hf Hdoc eq_refl Hq
             Hrows Hrne Hlines).
  rewrite path_fetch_query_headings, path_fetch_query_length, map_pr_path_query.
  reflexivity.
Qed.

Lemma retrieval_success_witness :
  get_sections_content store_two_documents (Some 1%N) (Some [PyStr "5.2"]) w0
  = (Ok ("# 38.331" ++ nl ++ nl ++ "# 5.2 Random Access" ++ nl ++ nl ++ "Intro text"
         ++ nl ++ nl ++ "## 5.2.1 Contention" ++ nl ++ nl ++ "Detail"),
     {| io := [EvGetDocument 1; EvPathFetch 1 ["5.2"]; EvContentFetch 1 [["A"]]];
        log := [LogInfoFound 1 "38.331" "17.0.0";
                LogDebugMatched "38.331" "17.0.0" ["5.2 Random Access"];
                LogDebugRetrieved 2 "38.331" "17.0.0" [["A"]]] |}).
Proof.
  refine (retrieval_success store_two_documents 1%N [PyStr "5.2"] w0 doc_38331
            _ _ _ _ _).
  - split; [discriminate | reflexivity].
  - reflexivity.
  - reflexivity.
  - discriminate.
  - repeat constructor; simpl; discriminate.
Defined.

Lemma fetch_sections_ok_inv :
  forall db (d : uuid) pats w md,
    fst (fetch_sections db d pats w) = Ok md ->
    exists doc,
      find (fun x => N.eqb (id x) d) (documents db) = Some doc
      /\ (forall op, fault db op = None)
      /\ path_fetch_query (section_table db) (id doc) pats <> []
      /\ exists rows,
           content_fetch_query (section_table db) (id doc)
             (map pr_path (path_fetch_query (section_table db) (id doc) pats))
           = rows
           /\ has_str_content rows
           /\ md = strip (join nl ([("# " ++ spec doc)%string; ""] ++ blocks rows)).
Proof.
  intros db d pats w md. walk_stages; try discriminate.
  intros [= <-]. exists doc. split; [reflexivity|]. split.
  { intros []; assumption. }
  rewrite Hsections. split; [discriminate|].
  exists (c :: cs). split; [exact Hrows|].
  destruct (markdown_lines_ok_inv _ _ _ Hlines) as [Hs ->]. auto.
Qed.

(** X12. A call returns a text only when every stage went through: the
    arguments passed the checks, no statement failed, the document was
    found, a section matched and every content of the expanded sections
    is a string.  The text is then the rendering of exactly these
    sections, a trimmed text. *)
Theorem retrieval_success_inv :
  forall db_conn doc_id section_list w md,
    fst (get_sections_content db_conn doc_id section_list w) = Ok md ->
    exists (d : uuid) l doc,
      doc_id = Some d /\ section_list = Some l /\ valid_patterns l
      /\ (forall op, fault db_conn op = None)
      /\ find (fun x => N.eqb (id x) d) (documents db_conn) = Some doc
      /\ let matched := matched_sections (section_table db_conn) (id doc) (strs l) in
         let rows :=
           map row_of
             (subtree_sections (section_table db_conn) (id doc)
                (map sec_path matched)) in
         matched <> []
         /\ has_str_content rows
         /\ md = strip (join nl ([("# " ++ spec doc)%string; ""] ++ blocks rows))
         /\ strip md = md.
Proof.
  intros db doc_id sl w md. unfold get_sections_content.
  destruct doc_id as [d|]; [|discriminate].
  destruct sl as [[|v l]|]; try discriminate. cbn [falsy_list elements].
  destruct (forallb isinstance_str (v :: l)) eqn:Hall; [|discriminate].
  cbn [negb]. unfold try_except.
  destruct (fetch_sections db d (strs (v :: l)) w) as [[md'|e] w'] eqn:E;
    [|discriminate].
  intros [= <-].
  destruct (fetch_sections_ok_inv db d (strs (v :: l)) w md') as
    [doc [Hdoc [Hf [Hq [rows [Hrows [Hstr Hmd]]]]]]].
  { now rewrite E. }
  exists d, (v :: l), doc. split; [reflexivity|]. split; [reflexivity|].
  split; [split; [discriminate | exact Hall]|].
  split; [exact Hf|]. split; [exact Hdoc|].
  rewrite map_pr_path_query in Hrows. subst rows.
  split; [|split; [exact Hstr | split; [exact Hmd|]]].
  - intros E0. apply Hq. unfold path_fetch_query. now rewrite E0.
  - rewrite Hmd. apply strip_idempotent.
Qed.

Lemma retrieval_success_inv_witness :
  exists (d : uuid) l doc,
    Some 1%N = Some d /\ Some [PyStr "5.2"] = Some l /\ valid_patterns l
    /\ (forall op, fault store op = None)
    /\ find (fun x => N.eqb (id x) d) (documents store) = Some doc
    /\ let matched := matched_sections (section_table store) (id doc) (strs l) in
       let rows :=
         map row_of
           (subtree_sections (section_table store) (id doc) (map sec_path matched)) in
       matched <> []
       /\ has_str_content rows
       /\ "# 38.331" ++ nl ++ nl ++ "# 5.2 Random Access" ++ nl ++ nl ++ "Intro text"
          ++ nl ++ nl ++ "## 5.2.1 Contention" ++ nl ++ nl ++ "Detail"
          = strip (join nl ([("# " ++ spec doc)%string; ""] ++ blocks rows))
       /\ strip ("# 38.331" ++ nl ++ nl ++ "# 5.2 Random Access" ++ nl ++ nl
                 ++ "Intro text" ++ nl ++ nl ++ "## 5.2.1 Contention" ++ nl ++ nl
                 ++ "Detail")
          = "# 38.331" ++ nl ++ nl ++ "# 5.2 Random Access" ++ nl ++ nl ++ "Intro text"
            ++ nl ++ nl ++ "## 5.2.1 Contention" ++ nl ++ nl ++ "Detail".
Proof.
  apply (retrieval_success_inv store (Some 1%N) (Some [PyStr "5.2"]) w0).
  reflexivity.
Defined.

(* ---------- sections of other documents ---------- *)

Lemma filter_and_filter :
  forall (A : Type) (p q : A -> bool) l,
    filter (fun x => p x && q x) (filter p l) = filter (fun x => p x && q x) l.
Proof.
  intros A p q l. induction l as [|x l IH]; simpl; [reflexivity|].
  destruct (p x) eqn:Ep; simpl; rewrite ?Ep; simpl; now rewrite IH.
Qed.

Lemma path_fetch_query_of_document :
  forall tbl d pats,
    path_fetch_query (sections_of d tbl) d pats = path_fetch_query tbl d pats.
Proof.
  intros. unfold path_fetch_query, matched_sections, sections_of.
  now rewrite (filter_and_filter _ (fun s => N.eqb (sec_document_id s) d)).
Qed.

Lemma content_fetch_query_of_document :
  forall tbl d paths,
    content_fetch_query (sections_of d tbl) d paths = content_fetch_query tbl d paths.
Proof.
  intros. unfold content_fetch_query, subtree_sections, sections_of.
  now rewrite (filter_and_filter _ (fun s => N.eqb (sec_document_id s) d)).
Qed.

Lemma fetch_sections_only_document :
  forall db (d : uuid) pats w,
    fetch_sections (only_document d db) d pats w = fetch_sections db d pats w.
Proof.
  intros db d pats w.
  unfold fetch_sections, cursor, get_document_by_id, execute_path_fetch,
    execute_content_fetch, send, logger, ret, raise, bind, only_document.
  cbn [documents section_table fault].
  destruct (fault db OpCursor); [reflexivity|].
  destruct (fault db OpGetDocument); [reflexivity|]. cbv beta iota.
  destruct (find _ _) as [doc|] eqn:Hfind; [|reflexivity].
  apply find_some in Hfind. destruct Hfind as [_ Hid]. apply N.eqb_eq in Hid.
  rewrite Hid. cbv beta iota.
  destruct (fault db OpPathFetch); [reflexivity|]. cbv beta iota.
  rewrite path_fetch_query_of_document.
  destruct (path_fetch_query _ _ _) as [|r rs]; [reflexivity|].
  cbn [is_empty]. cbv beta iota.
  destruct (fault db OpContentFetch); [reflexivity|]. cbv beta iota.
  rewrite content_fetch_query_of_document. reflexivity.
Qed.

(** X13. The sections of other documents play no part: a call for a
    document returns, raises, sends and logs the same over the whole
    table as over the sections of that document alone. *)
Theorem other_documents_do_not_matter :
  forall db_conn (d : uuid) section_list w,
    get_sections_content (only_document d db_conn) (Some d) section_list w
    = get_sections_content db_conn (Some d) section_list w.
Proof.
  intros db d sl w. unfold get_sections_content.
  destruct (falsy_list sl); [reflexivity|].
  destruct (negb _); [reflexivity|].
  unfold try_except. now rewrite fetch_sections_only_document.
Qed.

(* ---------- order of the table ---------- *)

Lemma generate_markdown_fst :
  forall doc_name rows w,
    fst (generate_markdown doc_name rows w) = render_outcome doc_name rows.
Proof.
  intros t rows w. unfold render_outcome.
  destruct (markdown_lines t rows) as [l|e] eqn:E.
  - now rewrite (generate_markdown_ok t rows l w E).
  - now rewrite (generate_markdown_raised t rows e w E).
Qed.

Lemma fetch_sections_fst :
  forall db d pats w,
    fst (fetch_sections db d pats w) = retrieval_outcome db d pats.
Proof.
  intros db d pats w. unfold retrieval_outcome, render_outcome.
  walk_stages; rewrite ?Hsections; cbn [is_empty]; rewrite ?HfContent, ?Hrows;
    cbn [is_empty]; rewrite ?Hlines; reflexivity.
Qed.

Lemma is_empty_perm :
  forall (A : Type) (l l' : list A), Permutation l l' -> is_empty l = is_empty l'.
Proof.
  intros A l l' H. destruct l, l'; try reflexivity.
  - apply Permutation_nil in H. discriminate.
  - apply Permutation_sym, Permutation_nil in H. discriminate.
Qed.

Lemma matched_sections_perm :
  forall tbl tbl' d pats,
    Permutation tbl tbl' ->
    Permutation (matched_sections tbl d pats) (matched_sections tbl' d pats).
Proof. intros. now apply Permutation_filter_compat. Qed.

Lemma content_rows_ignore_table_order :
  forall tbl tbl' d pats,
    Permutation tbl tbl' ->
    unique_paths tbl d ->
    content_fetch_query tbl d (map pr_path (path_fetch_query tbl d pats))
    = content_fetch_query tbl' d (map pr_path (path_fetch_query tbl' d pats)).
Proof.
  intros tbl tbl' d pats Hp Hu. rewrite !map_pr_path_query.
  unfold content_fetch_query. f_equal.
  rewrite <- (subtree_sections_table_order tbl tbl' d _ Hp Hu).
  pose proof (matched_sections_perm tbl tbl' d pats Hp) as Hm.
  apply subtree_sections_covered.
  - intros m Hin. exists m. split; [|apply isDescendantOrSelf_refl].
    apply (Permutation_in _ (Permutation_map sec_path Hm)). exact Hin.
  - intros m Hin. exists m. split; [|apply isDescendantOrSelf_refl].
    apply (Permutation_in _ (Permutation_sym (Permutation_map sec_path Hm))).
    exact Hin.
Qed.

(** X14. When the sections of every document lie on distinct paths, what
    a call returns or raises does not depend on the order in which the
    table holds its rows, nor on what was sent and logged before. *)
Theorem retrieval_ignores_table_order :
  forall db_conn db_conn' doc_id section_list w w',
    documents db_conn' = documents db_conn ->
    (forall op, fault db_conn' op = fault db_conn op) ->
    Permutation (section_table db_conn) (section_table db_conn') ->
    (forall d, unique_paths (section_table db_conn) d) ->
    fst (get_sections_content db_conn' doc_id section_list w')
    = fst (get_sections_content db_conn doc_id section_list w).
Proof.
  intros db db' doc_id sl w w' Hdocs Hfault Hperm Huniq.
  unfold get_sections_content.
  destruct doc_id as [d|]; [|reflexivity].
  destruct (falsy_list sl); [reflexivity|].
  destruct (negb _); [reflexivity|].
  unfold try_except, fetch_failed.
  pose proof (fetch_sections_fst db d (strs (elements sl)) w) as E.
  pose proof (fetch_sections_fst db' d (strs (elements sl)) w') as E'.
  assert (Hsame : retrieval_outcome db' d (strs (elements sl))
                  = retrieval_outcome db d (strs (elements sl))).
  { unfold retrieval_outcome. rewrite !Hfault, Hdocs.
    destruct (fault db OpCursor); [reflexivity|].
    destruct (fault db OpGetDocument); [reflexivity|].
    destruct (find _ _) as [doc|]; [|reflexivity].
    destruct (fault db OpPathFetch); [reflexivity|]. cbv zeta.
    rewrite (is_empty_perm _ _ _
               (Permutation_map _
                  (matched_sections_perm _ _ (id doc) (strs (elements sl))
                     (Permutation_sym Hperm)))
             : is_empty (path_fetch_query (section_table db') _ _)
               = is_empty (path_fetch_query (section_table db) _ _)).
    destruct (is_empty _); [reflexivity|].
    destruct (fault db OpContentFetch); [reflexivity|].
    now rewrite <- (content_rows_ignore_table_order _ _ (id doc) (strs (elements sl))
                      Hperm (Huniq (id doc))). }
  rewrite <- Hsame in E.
  destruct (fetch_sections db d _ w) as [[md|e] w1];
    destruct (fetch_sections db' d _ w') as [[md'|e'] w1'];
    simpl in *; congruence.
Qed.

Lemma retrieval_ignores_table_order_witness :
  fst (get_sections_content store_shuffled (Some 1%N) (Some [PyStr "5"; PyStr "5.2"]) w0)
  = fst (get_sections_content store (Some 1%N) (Some [PyStr "5"; PyStr "5.2"]) w0).
Proof.
  apply (retrieval_ignores_table_order store store_shuffled).
  - reflexivity.
  - reflexivity.
  - exact store_shuffled_perm.
  - exact store_unique_paths.
Defined.

(* ================================================================== *)
(** * Further properties of the route handlers *)
(* ================================================================== *)

(** X15. The handler of a graph answers in one of three ways: with the
    text [get_sections_content] returned for the document and the top
    sections of the graph row; with status 404 exactly when there is no
    graph row; with status 500 for every exception of
    [get_sections_content], the failed argument checks included. *)
Theorem graph_route_answers :
  forall conn result w,
    match fst (get_latest_graph_by_procedure_id_and_entity conn result w) with
    | Ok context_md =>
        exists (document_id : uuid) top_sections,
          result = Some (document_id, top_sections)
          /\ fst (get_sections_content conn (Some document_id) top_sections w)
             = Ok context_md
    | Raised e =>
        (result = None /\ e = HTTPException 404 "Graph not found")
        \/ (e = HTTPException 500 "Internal server error while fetching graph"
            /\ exists (document_id : uuid) top_sections inner,
                 result = Some (document_id, top_sections)
                 /\ fst (get_sections_content conn (Some document_id) top_sections w)
                    = Raised inner)
    end.
Proof.
  intros conn result w.
  destruct result as [[d tops]|].
  - destruct (fst (get_sections_content conn (Some d) tops w)) as [md|inner] eqn:E.
    + unfold get_latest_graph_by_procedure_id_and_entity.
      destruct (get_sections_content conn (Some d) tops w) as [[md'|e'] w'] eqn:E2;
        simpl in E; [|discriminate]. injection E as ->. simpl.
      exists d, tops. split; [reflexivity | exact (f_equal fst E2)].
    + rewrite (route_answers_500 conn d tops w inner E). right. split; [reflexivity|].
      exists d, tops, inner. auto.
  - simpl. left. auto.
Qed.

(* ---------- dictionaries ---------- *)

Section PyDictFacts.
Variables K V : Type.
Variable key_eqb : K -> K -> bool.
Hypothesis key_eqb_eq : forall a b, key_eqb a b = true <-> a = b.

Lemma key_eqb_refl : forall a, key_eqb a a = true.
Proof. intros a. now apply key_eqb_eq. Qed.

Lemma key_eqb_neq : forall a b, a <> b -> key_eqb a b = false.
Proof.
  intros a b H. destruct (key_eqb a b) eqn:E; [|reflexivity].
  apply key_eqb_eq in E. contradiction.
Qed.

Lemma dict_contains_tabulate :
  forall (f : K -> V) ks k,
    dict_contains key_eqb k (tabulate f ks) = true <-> In k ks.
Proof.
  intros f ks k. induction ks as [|x ks IH]; simpl.
  - split; [discriminate | tauto].
  - rewrite orb_true_iff, IH, key_eqb_eq. split; intros [H|H]; auto.
Qed.

Lemma dict_getitem_tabulate :
  forall (f : K -> V) ks k,
    In k ks -> dict_getitem key_eqb k (tabulate f ks) = Some (f k).
Proof.
  intros f ks k. induction ks as [|x ks IH]; simpl; [tauto|].
  intros H. destruct (key_eqb k x) eqn:E.
  - apply key_eqb_eq in E. now subst.
  - destruct H as [->|H]; [now rewrite key_eqb_refl in E | now apply IH].
Qed.

Lemma dict_setitem_new :
  forall (f : K -> V) ks k v,
    ~ In k ks ->
    dict_setitem key_eqb k v (tabulate f ks) = (tabulate f ks ++ [(k, v)])%list.
Proof.
  intros f ks k v. induction ks as [|x ks IH]; simpl; intros H; [reflexivity|].
  rewrite key_eqb_neq by (intros ->; apply H; now left).
  rewrite IH by (intros Hin; apply H; now right). reflexivity.
Qed.

Lemma dict_setitem_last :
  forall (f : K -> V) ks k v v',
    ~ In k ks ->
    dict_setitem key_eqb k v' (tabulate f ks ++ [(k, v)])%list
    = (tabulate f ks ++ [(k, v')])%list.
Proof.
  intros f ks k v v'. induction ks as [|x ks IH]; simpl; intros H.
  - now rewrite key_eqb_refl.
  - rewrite key_eqb_neq by (intros ->; apply H; now left).
    rewrite IH by (intros Hin; apply H; now right). reflexivity.
Qed.

Lemma dict_getitem_last :
  forall (f : K -> V) ks k v,
    ~ In k ks ->
    dict_getitem key_eqb k (tabulate f ks ++ [(k, v)])%list = Some v.
Proof.
  intros f ks k v. induction ks as [|x ks IH]; simpl; intros H.
  - now rewrite key_eqb_refl.
  - rewrite key_eqb_neq by (intros ->; apply H; now left).
    apply IH. intros Hin. apply H. now right.
Qed.

Lemma dict_setitem_present :
  forall (f : K -> V) ks k v,
    In k ks -> NoDup ks ->
    dict_setitem key_eqb k v (tabulate f ks)
    = tabulate (fun k' => if key_eqb k' k then v else f k') ks.
Proof.
  intros f ks k v. induction ks as [|x ks IH]; simpl; intros Hin Hnd; [tauto|].
  inversion Hnd as [|? ? Hx Hnd']; subst.
  destruct (key_eqb k x) eqn:E.
  - apply key_eqb_eq in E. subst x. rewrite key_eqb_refl. f_equal.
    unfold tabulate. apply map_ext_in. intros y Hy.
    rewrite key_eqb_neq; [reflexivity|]. intros ->. contradiction.
  - assert (Hxk : key_eqb x k = false).
    { apply key_eqb_neq. intros ->. now rewrite key_eqb_refl in E. }
    rewrite Hxk. f_equal. apply IH; [|assumption].
    destruct Hin as [->|Hin]; [now rewrite key_eqb_refl in E | assumption].
Qed.
End PyDictFacts.

(* ---------- the grouping loop ---------- *)

Import Routes.
Arguments doc_key_eqb : simpl never.
Arguments key_of : simpl never.

Lemma doc_key_eqb_eq : forall a b, doc_key_eqb a b = true <-> a = b.
Proof.
  intros [[[i1 s1] v1] r1] [[[i2 s2] v2] r2]. unfold doc_key_eqb.
  rewrite !andb_true_iff, N.eqb_eq, !String.eqb_eq, Z.eqb_eq.
  split.
  - intros [[[-> ->] ->] ->]. reflexivity.
  - intros [= -> -> -> ->]. auto.
Qed.

Lemma first_keys_in : forall ks k, In k (first_keys ks) <-> In k ks.
Proof.
  induction ks as [|x ks IH]; intros k; simpl; [tauto|].
  rewrite filter_In, IH, negb_true_iff. split.
  - intros [H|[H _]]; auto.
  - intros [H|H]; [now left|].
    destruct (doc_key_eqb k x) eqn:E.
    + left. symmetry. now apply doc_key_eqb_eq.
    + right. auto.
Qed.

Lemma first_keys_NoDup : forall ks, NoDup (first_keys ks).
Proof.
  induction ks as [|x ks IH]; simpl; constructor.
  - rewrite filter_In, negb_true_iff. intros [_ H].
    now rewrite (proj2 (doc_key_eqb_eq x x) eq_refl) in H.
  - now apply NoDup_filter.
Qed.

Lemma first_keys_snoc :
  forall ks k,
    first_keys (ks ++ [k])
    = if existsb (doc_key_eqb k) ks then first_keys ks
      else (first_keys ks ++ [k])%list.
Proof.
  intros ks k. induction ks as [|x ks IH]; simpl; [reflexivity|].
  rewrite IH. destruct (doc_key_eqb k x) eqn:E; simpl.
  - apply doc_key_eqb_eq in E. subst x.
    destruct (existsb (doc_key_eqb k) ks); [reflexivity|].
    rewrite filter_app. simpl.
    rewrite (proj2 (doc_key_eqb_eq k k) eq_refl). simpl. now rewrite app_nil_r.
  - destruct (existsb (doc_key_eqb k) ks); [reflexivity|].
    rewrite filter_app. simpl. rewrite E. reflexivity.
Qed.

Lemma existsb_key_in :
  forall k ks, existsb (doc_key_eqb k) ks = true <-> In k ks.
Proof.
  intros k ks. rewrite existsb_exists. split.
  - intros [x [Hx E]]. apply doc_key_eqb_eq in E. now subst.
  - intros H. exists k. split; [exact H | now apply doc_key_eqb_eq].
Qed.

Lemma items_of_key_snoc :
  forall results row k,
    items_of_key (results ++ [row]) k
    = (items_of_key results k
       ++ if doc_key_eqb (key_of row) k then [item_of row] else [])%list.
Proof.
  intros results row k. unfold items_of_key. rewrite filter_app, map_app. simpl.
  destruct (doc_key_eqb (key_of row) k); reflexivity.
Qed.

Lemma items_of_key_absent :
  forall results k, ~ In k (map key_of results) -> items_of_key results k = [].
Proof.
  intros results k H. unfold items_of_key.
  induction results as [|r rs IH]; simpl; [reflexivity|].
  destruct (doc_key_eqb (key_of r) k) eqn:E.
  - apply doc_key_eqb_eq in E. exfalso. apply H. left. exact E.
  - apply IH. intros Hin. apply H. now right.
Qed.

(** One turn of the loop takes the dictionary of the rows read so far
    to the dictionary of these rows and the next one. *)
Lemma group_row_grouped :
  forall results row, group_row (grouped results) row = grouped (results ++ [row]).
Proof.
  intros results row. unfold group_row, grouped.
  set (k := key_of row). set (ks := first_keys (map key_of results)).
  rewrite map_app. simpl map. fold k. rewrite first_keys_snoc.
  destruct (existsb (doc_key_eqb k) (map key_of results)) eqn:Ein.
  - assert (Hin : In k ks).
    { apply first_keys_in. now apply existsb_key_in. }
    rewrite (proj2 (dict_contains_tabulate _ _ _ doc_key_eqb_eq _ ks k) Hin).
    cbn [negb]. rewrite (dict_getitem_tabulate _ _ _ doc_key_eqb_eq _ ks k Hin).
    rewrite (dict_setitem_present _ _ _ doc_key_eqb_eq _ ks k _ Hin
               (first_keys_NoDup _)).
    unfold tabulate. apply map_ext. intros k'. f_equal.
    rewrite items_of_key_snoc. fold k.
    destruct (doc_key_eqb k' k) eqn:E.
    + apply doc_key_eqb_eq in E. subst k'.
      now rewrite (proj2 (doc_key_eqb_eq k k) eq_refl).
    + destruct (doc_key_eqb k k') eqn:E'.
      * apply doc_key_eqb_eq in E'. subst k'.
        now rewrite (proj2 (doc_key_eqb_eq k k) eq_refl) in E.
      * now rewrite app_nil_r.
  - assert (Hnin : ~ In k ks).
    { intros H. unfold ks in H. apply (proj1 (first_keys_in _ _)) in H.
      apply (proj2 (existsb_key_in _ _)) in H. congruence. }
    assert (Hc : dict_contains doc_key_eqb k (tabulate (items_of_key results) ks)
                 = false).
    { destruct (dict_contains _ _ _) eqn:E; [|reflexivity].
      apply (dict_contains_tabulate _ _ _ doc_key_eqb_eq) in E. contradiction. }
    rewrite Hc. cbn [negb].
    rewrite (dict_setitem_new _ _ _ doc_key_eqb_eq _ ks k [] Hnin).
    rewrite (dict_getitem_last _ _ _ doc_key_eqb_eq _ ks k [] Hnin).
    rewrite (dict_setitem_last _ _ _ doc_key_eqb_eq _ ks k [] _ Hnin).
    unfold tabulate. rewrite map_app. simpl. f_equal.
    + apply map_ext_in. intros k' Hk'. f_equal.
      rewrite items_of_key_snoc. fold k.
      destruct (doc_key_eqb k k') eqn:E; [|now rewrite app_nil_r].
      apply doc_key_eqb_eq in E. subst k'. contradiction.
    + f_equal. f_equal. rewrite items_of_key_snoc. fold k.
      rewrite (proj2 (doc_key_eqb_eq k k) eq_refl).
      rewrite items_of_key_absent; [reflexivity|].
      intros H. apply Hnin. now apply first_keys_in.
Qed.

Lemma group_rows_from :
  forall rest done,
    fold_left group_row rest (grouped done) = grouped (done ++ rest).
Proof.
  induction rest as [|row rest IH]; intros done; simpl.
  - now rewrite app_nil_r.
  - rewrite group_row_grouped, IH, <- app_assoc. reflexivity.
Qed.

Lemma group_rows_grouped : forall results, group_rows results = grouped results.
Proof. intros results. exact (group_rows_from results []). Qed.

Lemma build_response_grouped :
  forall results,
    build_response (group_rows results)
    = map (document_of_key results) (first_keys (map key_of results)).
Proof.
  intros results. rewrite group_rows_grouped. unfold build_response, grouped, tabulate.
  rewrite map_map. apply map_ext. intros [[[i s] v] r]. reflexivity.
Qed.

(** X16. The response of the procedures route holds one entry per
    document key of the rows, in the order in which the keys first occur
    among the rows; the procedures of an entry are the items of the rows
    that bear its key, in row order.  No rows give the empty response.
    When the query fails the handler answers with status 500, whatever
    the exception, and logs it. *)
Theorem procedures_grouped_by_document :
  forall fetched w,
    get_procedure_names_and_entities fetched w
    = match fetched with
      | Ok results =>
          (Ok (map (document_of_key results) (first_keys (map key_of results))), w)
      | Raised e =>
          (Raised (HTTPException 500
                     "Internal server error while fetching procedures"),
           {| io := io w; log := (log w ++ [LogErrorRoute e])%list |})
      end.
Proof.
  intros [results|e] w; [|reflexivity].
  unfold get_procedure_names_and_entities, ret.
  now rewrite build_response_grouped.
Qed.

Lemma key_of_document_of_key :
  forall results k, key_of_response (document_of_key results k) = k.
Proof. intros results [[[i s] v] r]. reflexivity. Qed.

Lemma procedures_of_document_of_key :
  forall results k,
    document_procedures (document_of_key results k) = items_of_key results k.
Proof. intros results [[[i s] v] r]. reflexivity. Qed.

Lemma count_key_once :
  forall ks k,
    NoDup ks -> In k ks ->
    list_sum (map (fun k' => if doc_key_eqb k k' then 1 else 0) ks) = 1.
Proof.
  induction ks as [|x ks IH]; intros k Hnd Hin; [inversion Hin|].
  inversion Hnd as [|? ? Hx Hnd']; subst. simpl.
  destruct (doc_key_eqb k x) eqn:E.
  - apply doc_key_eqb_eq in E. subst x. f_equal.
    clear - Hx. induction ks as [|y ks IH]; simpl; [reflexivity|].
    destruct (doc_key_eqb k y) eqn:E.
    + apply doc_key_eqb_eq in E. subst y. exfalso. apply Hx. now left.
    + apply IH. intros H. apply Hx. now right.
  - destruct Hin as [->|Hin].
    + now rewrite (proj2 (doc_key_eqb_eq k k) eq_refl) in E.
    + now apply IH.
Qed.

Lemma items_counted :
  forall results ks,
    NoDup ks -> incl (map key_of results) ks ->
    list_sum (map (fun k => List.length (items_of_key results k)) ks)
    = List.length results.
Proof.
  induction results as [|row rs IH]; intros ks Hnd Hincl.
  - clear. induction ks as [|k ks IHk]; [reflexivity|]. exact IHk.
  - assert (Hk : In (key_of row) ks) by (apply Hincl; now left).
    assert (Hrs : incl (map key_of rs) ks).
    { intros k Hin. apply Hincl. now right. }
    specialize (IH ks Hnd Hrs).
    assert (Hsplit :
              list_sum (map (fun k => List.length (items_of_key (row :: rs) k)) ks)
              = list_sum (map (fun k' => if doc_key_eqb (key_of row) k' then 1 else 0) ks)
                + list_sum (map (fun k => List.length (items_of_key rs k)) ks)).
    { clear. induction ks as [|k ks IHk]; [reflexivity|].
      simpl. rewrite IHk. unfold items_of_key. simpl.
      destruct (doc_key_eqb (key_of row) k); simpl; lia. }
    rewrite Hsplit, IH, (count_key_once ks (key_of row) Hnd Hk). reflexivity.
Qed.

(** X17. The grouping of the procedures route is a partition of the
    rows: no two entries of the response bear the same document key,
    the item of every row stands in the entry of the row's key, every
    entry comes from a row, and the entries hold as many procedures
    together as there are rows. *)
Theorem grouping_partitions_rows :
  forall results,
    let response := build_response (group_rows results) in
    NoDup (map key_of_response response)
    /\ (forall row,
           In row results ->
           exists d,
             In d response /\ key_of_response d = key_of row
             /\ In (item_of row) (document_procedures d))
    /\ (forall d,
           In d response ->
           exists row, In row results /\ key_of row = key_of_response d)
    /\ list_sum (map (fun d => List.length (document_procedures d)) response)
       = List.length results.
Proof.
  intros results response. subst response. rewrite build_response_grouped.
  split; [|split; [|split]].
  - rewrite map_map.
    rewrite (map_ext _ (fun k => k) (key_of_document_of_key results)), map_id.
    apply first_keys_NoDup.
  - intros row Hrow. exists (document_of_key results (key_of row)).
    split; [|split].
    + apply in_map. apply first_keys_in. now apply in_map.
    + apply key_of_document_of_key.
    + rewrite procedures_of_document_of_key. unfold items_of_key.
      apply in_map. apply filter_In. split; [exact Hrow|].
      now apply doc_key_eqb_eq.
  - intros d Hd. apply in_map_iff in Hd. destruct Hd as [k [<- Hk]].
    apply (proj1 (first_keys_in _ _)) in Hk. apply in_map_iff in Hk.
    destruct Hk as [row [<- Hrow]]. exists row. split; [exact Hrow|].
    now rewrite key_of_document_of_key.
  - rewrite map_map.
    rewrite (map_ext _ (fun k => List.length (items_of_key results k))).
    + apply items_counted; [apply first_keys_NoDup|].
      intros k Hk. now apply first_keys_in.
    + intros k. now rewrite procedures_of_document_of_key.
Qed.

Lemma grouping_partitions_rows_witness :
  map document_procedures (build_response (group_rows [row_a; row_b; row_c]))
  = [[item_of row_a; item_of row_c]; [item_of row_b]]
  /\ exists d,
       In d (build_response (group_rows [row_a; row_b; row_c]))
       /\ key_of_response d = key_of row_c
       /\ In (item_of row_c) (document_procedures d).
Proof.
  split; [reflexivity|].
  apply (grouping_partitions_rows [row_a; row_b; row_c]). simpl. auto.
Defined.

(* ================================================================== *)
(** * Properties of [lifespan] *)
(* ================================================================== *)

(** X18. When [_connect] raises, [lifespan] logs the exception and
    raises the [RuntimeError] "Database setup failed, shutting down
    API." with that exception as its cause; the handler is not stored in
    the application state, the application is not served and
    [_disconnect] is not called. *)
Theorem lifespan_startup_failure :
  forall db_handler thrown tr e,
    Lifespan.connect_fault db_handler = Some e ->
    Lifespan.lifespan db_handler thrown tr
    = (inr (Lifespan.RuntimeError "Database setup failed, shutting down API."
              (Lifespan.Py e)),
       (tr ++ [Lifespan.Connect; Lifespan.LogError (Lifespan.Py e)])%list).
Proof.
  intros h thrown tr e He.
  unfold Lifespan.lifespan, Lifespan.seq, Lifespan.try_catch, Lifespan._connect,
    Lifespan.mark, Lifespan.throw, Lifespan.unit_.
  rewrite He. cbn. rewrite <- app_assoc. reflexivity.
Qed.

Lemma lifespan_startup_failure_witness :
  Lifespan.lifespan Lifespan.handler_down None []
  = (inr (Lifespan.RuntimeError "Database setup failed, shutting down API."
            (Lifespan.Py connection_lost)),
     [Lifespan.Connect; Lifespan.LogError (Lifespan.Py connection_lost)]).
Proof.
  apply (lifespan_startup_failure Lifespan.handler_down None [] connection_lost).
  reflexivity.
Defined.

(** X19. When [_connect] returns, [lifespan] stores the handler, serves
    the application and then calls [_disconnect] exactly once, whether
    the application shut down or an exception was thrown into the
    generator.  An exception of [_disconnect] is the one that leaves;
    otherwise the thrown exception leaves unchanged, and without one
    [lifespan] ends normally. *)
Theorem lifespan_disconnects_once :
  forall db_handler thrown tr,
    Lifespan.connect_fault db_handler = None ->
    snd (Lifespan.lifespan db_handler thrown tr)
    = (tr ++ [Lifespan.Connect; Lifespan.SetHandler; Lifespan.Serve;
              Lifespan.Disconnect])%list
    /\ fst (Lifespan.lifespan db_handler thrown tr)
       = match Lifespan.disconnect_fault db_handler, thrown with
         | Some e, _ => inr (Lifespan.Py e)
         | None, Some e => inr (Lifespan.Py e)
         | None, None => inl tt
         end.
Proof.
  intros h thrown tr Hc.
  unfold Lifespan.lifespan, Lifespan.seq, Lifespan.try_catch, Lifespan.try_finally,
    Lifespan._connect, Lifespan._disconnect, Lifespan.yield_, Lifespan.mark,
    Lifespan.throw, Lifespan.unit_.
  rewrite Hc. destruct thrown, (Lifespan.disconnect_fault h); cbn;
    rewrite <- !app_assoc; auto.
Qed.

Lemma lifespan_disconnects_once_witness :
  snd (Lifespan.lifespan Lifespan.handler_up (Some connection_lost) [])
  = [Lifespan.Connect; Lifespan.SetHandler; Lifespan.Serve; Lifespan.Disconnect]
  /\ fst (Lifespan.lifespan Lifespan.handler_up (Some connection_lost) [])
     = inr (Lifespan.Py connection_lost).
Proof.
  apply (lifespan_disconnects_once Lifespan.handler_up (Some connection_lost) []).
  reflexivity.
Defined.
